(** * Hay Day XP optimizer: a shallow embedding of [app/app.py]

    The development follows [optimize_plan_notebook] step by step: the
    catalogue frame and the per-item dictionaries, the memoised closure
    check, the linear program handed to the solver, and the extraction of
    the ranked plan.

    Modelling conventions.
    - A pandas frame is the list of its rows, in row order.
    - A Python [float] is a rational number ([Q]); [float('nan')] is the
      only non-finite value the function can return and has its own
      constructor.
    - A Python [set] is a [gset]; its iteration order is the order of
      [elements], about which only membership and absence of duplicates
      are ever used.  A [dict] that is only looked up is a [gmap]; a
      [dict] that is iterated (the ingredient dictionary of a row) is the
      list of its key/value pairs in insertion order.
    - Exceptions are values of [exn]; a computation that may raise lives
      in [outcome].
    - The solver behind [model.solve] and the number of nested calls of
      [closure_ok] that the interpreter's stack allows are parameters. *)

From Stdlib Require Import QArith Qround Lqa Ascii String.
From stdpp Require Import gmap strings list fin_maps fin_sets sorting.

Open Scope string_scope.
Open Scope list_scope.

(** ** Exceptions *)

Inductive exn : Type :=
  | NameError (name : string)
  | KeyError (key : string)
  | RecursionError.

Inductive outcome (A : Type) : Type :=
  | Return (a : A)
  | Raise (e : exn).
Arguments Return {A} a.
Arguments Raise {A} e.

#[global] Instance outcome_ret : MRet outcome := λ A a, Return a.
#[global] Instance outcome_bind : MBind outcome := λ A B f m,
  match m with
  | Return a => f a
  | Raise e => Raise e
  end.

(** ** Numbers *)

Definition Qltb (a b : Q) : bool := negb (Qle_bool b a).

(** [max(a, b)] keeps its first argument unless the second is larger. *)
Definition py_max (a b : Q) : Q := if Qltb a b then b else a.

(** [round(x)] on a float: nearest integer, ties to the even one. *)
Definition py_round (x : Q) : Z :=
  let f := Qfloor x in
  let d := (x - inject_Z f)%Q in
  if Qltb d (1 # 2) then f
  else if Qltb (1 # 2) d then (f + 1)%Z
  else if Z.even f then f else (f + 1)%Z.

Inductive pyfloat : Type :=
  | Fin (q : Q)
  | NaN.

Definition sumQ (l : list Q) : Q := fold_right Qplus 0%Q l.

(** ** Strings *)

Definition is_alnum (c : ascii) : bool :=
  let n := nat_of_ascii c in
  ((48 <=? n) && (n <=? 57) || (65 <=? n) && (n <=? 90)
   || (97 <=? n) && (n <=? 122))%nat.

Definition lower_ascii (c : ascii) : ascii :=
  let n := nat_of_ascii c in
  if ((65 <=? n) && (n <=? 90))%nat then ascii_of_nat (n + 32) else c.

Fixpoint lower (s : string) : string :=
  match s with
  | EmptyString => EmptyString
  | String c s' => String (lower_ascii c) (lower s')
  end.

Fixpoint contains (p s : string) : bool :=
  if String.prefix p s then true
  else match s with
       | EmptyString => false
       | String _ s' => contains p s'
       end.

(** [re.search(pat, s, re.I)] for a pattern that is an alternation of
    plain words: some word occurs in [s], letter case ignored.  The text
    searched is taken to be ASCII, and case is folded on ASCII letters. *)
Definition re_search_I (words : list string) (s : string) : bool :=
  existsb (λ w, contains (lower w) (lower s)) words.

(** [re.sub(r'[^A-Za-z0-9]+', '_', s)]: every maximal run of characters
    that are not ASCII letters or digits becomes one underscore.  On the
    UTF-8 bytes of [s] this is exact, since every byte of a non-ASCII
    character is itself outside the class. *)
Fixpoint sub_non_alnum (in_run : bool) (s : string) : string :=
  match s with
  | EmptyString => EmptyString
  | String c s' =>
      if is_alnum c then String c (sub_non_alnum false s')
      else if in_run then sub_non_alnum true s'
      else String "_" (sub_non_alnum true s')
  end.

(** [v = lambda p, s: f"{p}{re.sub(r'[^A-Za-z0-9]+','_', s)}"] *)
Definition v (p s : string) : string := p +:+ sub_non_alnum false s.

(** ** The catalogue *)

(** One row of the goods frame, with the columns the optimizer reads. *)
Record Item : Type := {
  Name : string;
  name_norm : string;
  Level_num : Z;
  XP : Q;
  time_min : Q;
  needs_norm : list (string * Q);
  Yield_qty : Q;
  Building : string;
  Production_Type : string;
  Source : string;
}.

(** The goods frame: its rows, in order. *)
Abbreviation DataFrame := (list Item).

(** [d.get(k, default)] on an insertion-ordered dictionary. *)
Fixpoint dict_get {V} (d : list (string * V)) (k : string) : option V :=
  match d with
  | [] => None
  | (k', x) :: d' => if decide (k' = k) then Some x else dict_get d' k
  end.

Definition keys {V} (d : list (string * V)) : list string := d.*1.

(** [{r["name_norm"]: f(r) for _, r in rows.iterrows()}]: rows are
    inserted in order, a later row overwrites an earlier one. *)
Definition dict_of {V} (f : Item → V) (rows : DataFrame) : gmap string V :=
  fold_left (λ m r, <[name_norm r := f r]> m) rows ∅.

(** [frame[frame['name_norm'] == i][col].iloc[0]] *)
Definition iloc0 {V} (col : Item → V) (frame : DataFrame) (i : string)
  : option V :=
  col <$> head (filter (λ r, name_norm r = i) frame).

(** ** The linear program (the part of PuLP the optimizer uses)

    A model is the objective and the named constraints in the order they
    were added.  PuLP's own bookkeeping of names (it rewrites some
    characters and refuses a constraint name it already holds) belongs to
    the library and is not part of the embedding. *)

Inductive LpCategory : Type := Integer | Continuous.

Record LpVariable : Type := {
  var_name : string;
  lowBound : Q;
  cat : LpCategory;
}.

(** An affine expression [Σ c·x[i] + constant]; a variable is named by
    the key [i] under which the dictionary [x] holds it. *)
Record LpAffineExpression : Type := {
  terms : list (Q * string);
  constant : Q;
}.

Inductive LpSense : Type := LE | GE | EQ.

Record LpConstraint : Type := {
  lhs : LpAffineExpression;
  sense : LpSense;
  rhs : LpAffineExpression;
  cname : string;
}.

Record LpProblem : Type := {
  variables : gmap string LpVariable;
  objective : LpAffineExpression;
  constraints : list LpConstraint;
}.

(** [pl.LpStatus[model.status]] *)
Inductive LpStatus : Type :=
  | NotSolved
  | Optimal
  | Infeasible
  | Unbounded
  | Undefined.

#[global] Instance LpStatus_eq_dec : EqDecision LpStatus.
Proof. solve_decision. Defined.

(** [pl.lpSum(coef(i) * x[i] for i in items)] *)
Definition lpSum (coef : string → Q) (items : list string)
  : LpAffineExpression :=
  {| terms := (λ i, (coef i, i)) <$> items; constant := 0 |}.

(** [coef * x[k]] *)
Definition scaled (coef : Q) (k : string) : LpAffineExpression :=
  {| terms := [(coef, k)]; constant := 0 |}.

(** [e - c] for a number [c] *)
Definition minus_const (e : LpAffineExpression) (c : Q) : LpAffineExpression :=
  {| terms := terms e; constant := (constant e - c)%Q |}.

(** A number used where PuLP expects an expression. *)
Definition number (c : Q) : LpAffineExpression :=
  {| terms := []; constant := c |}.

(** Value of an expression under an assignment of the variables. *)
Definition eval (a : string → Q) (e : LpAffineExpression) : Q :=
  (sumQ ((λ t, t.1 * a t.2)%Q <$> terms e) + constant e)%Q.

Definition satisfies (a : string → Q) (c : LpConstraint) : Prop :=
  match sense c with
  | LE => (eval a (lhs c) <= eval a (rhs c))%Q
  | GE => (eval a (rhs c) <= eval a (lhs c))%Q
  | EQ => (eval a (lhs c) == eval a (rhs c))%Q
  end.

(** What [model.solve] leaves behind: the status and, per variable, the
    result of [x[i].value()] ([None] when the solver set no value). *)
Definition SolverAnswer : Type := LpStatus * (string → option Q).

(** ** The result *)

Record PlanRow : Type := {
  item : string;
  is_final : bool;
  qty : Q;
  xp_each : Q;
  xp_total : Q;
  time_min_each : Q;
  time_min_total : Q;
}.

(** A frame of plan rows together with the columns it carries. *)
Record PlanFrame : Type := {
  columns : list string;
  records : list PlanRow;
}.

Definition cols : list string :=
  ["item"; "is_final"; "qty"; "xp_each"; "xp_total"; "time_min_each";
   "time_min_total"].

(** [pd.DataFrame(rows)] for a list of row dictionaries: the columns are
    the keys met in the rows, so an empty list gives a frame without any
    column. *)
Definition DataFrame_of_rows (rows : list PlanRow) : PlanFrame :=
  {| columns := match rows with [] => [] | _ :: _ => cols end;
     records := rows |}.

(** [pd.DataFrame(columns=cols)] *)
Definition DataFrame_of_columns (cs : list string) : PlanFrame :=
  {| columns := cs; records := [] |}.

(** [frame[col]]: a column that is not there is a [KeyError]. *)
Definition getitem {A} (frame : PlanFrame) (col : string)
    (proj : PlanRow → A) : outcome (list A) :=
  if decide (col ∈ columns frame) then Return (proj <$> records frame)
  else Raise (KeyError col).

Record Result : Type := {
  status : LpStatus;
  XP_total : Q;
  XP_per_hour : pyfloat;
  total_time_used_min : Q;
  time_capacity_min : Q;
  plan : PlanFrame;
}.

(** Order of [sort_values(["is_final", "xp_each", "time_min_each"],
    ascending=[False, False, True])]: finals first, then larger
    [xp_each], then smaller [time_min_each]. *)
Definition plan_leb (a b : PlanRow) : bool :=
  match is_final a, is_final b with
  | true, false => true
  | false, true => false
  | _, _ =>
      if Qltb (xp_each b) (xp_each a) then true
      else if Qltb (xp_each a) (xp_each b) then false
      else Qle_bool (time_min_each a) (time_min_each b)
  end.

Definition plan_le (a b : PlanRow) : Prop := plan_leb a b = true.

#[global] Instance plan_le_dec : RelDecision plan_le.
Proof. intros a b. unfold plan_le. apply _. Defined.

Definition sort_values (rows : list PlanRow) : list PlanRow :=
  merge_sort plan_le rows.

(** ** The optimizer *)

Section Optimizer.

(** [norm], the name normalisation of the catalogue (Unicode white
    space, dashes and letter case).  Nothing below depends on what it
    computes, so it is left open here; [norm_ascii] further down is the
    function on ASCII names. *)
Variable norm : string → string.

(** The module-level frame [df] that [finals_in_unlocked] consults. *)
Variable df : DataFrame.

(** Number of nested calls of [closure_ok] that the interpreter allows
    before it raises [RecursionError].  This is not the value of
    [sys.getrecursionlimit()]: the frames already on the stack count
    against that limit, and a call through [lru_cache] takes more than
    one of them. *)
Variable recursion_limit : nat.

(** [model.solve(pl.PULP_CBC_CMD(msg=False))] *)
Variable solve : LpProblem → SolverAnswer.

(** *** Unlocked items and their dictionaries *)

Definition unlocked (df_cleaned : DataFrame) (player_level : Z) : DataFrame :=
  filter (λ r, (Level_num r <= player_level)%Z) df_cleaned.

Definition items_set (avail : DataFrame) : gset string :=
  list_to_set (name_norm <$> avail).

Definition xp (avail : DataFrame) : gmap string Q := dict_of XP avail.
Definition tmin (avail : DataFrame) : gmap string Q := dict_of time_min avail.
Definition needs_map (avail : DataFrame) : gmap string (list (string * Q)) :=
  dict_of needs_norm avail.
Definition yield_map (avail : DataFrame) : gmap string Q :=
  dict_of Yield_qty avail.
Definition type_map (avail : DataFrame) : gmap string string :=
  dict_of Production_Type avail.

Definition CROP_SOURCE_PATTERNS : list string := ["Field"; "Tree"; "Bush"].

Definition initial_stock_map (avail : DataFrame) : gmap string Q :=
  fold_left
    (λ m r, if re_search_I CROP_SOURCE_PATTERNS (Source r)
            then <[name_norm r := 30%Q]> m else m)
    avail ∅.

(** [initial_stock_map.get(k, 0.0)] *)
Definition initial_stock (avail : DataFrame) (k : string) : Q :=
  default 0%Q (initial_stock_map avail !! k).

(** *** Closure check, memoised by [lru_cache] *)

Section Closure.
Variable needs : gmap string (list (string * Q)).
Variable items : gset string.

(** The [for] loop of [closure_ok], with the recursive call passed
    in; the cache is threaded through the calls. *)
Fixpoint closure_loop
    (call : string → gmap string bool → outcome (bool * gmap string bool))
    (ings : list (string * Q)) (cache : gmap string bool)
  : outcome (bool * gmap string bool) :=
  match ings with
  | [] => Return (true, cache)
  | (ing, _) :: rest =>
      if decide (ing ∈ items) then
        '(ok, cache') ← call ing cache;
        if ok : bool then closure_loop call rest cache'
        else Return (false, cache')
      else Return (false, cache)
  end.

(** A call first looks its argument up in the cache; a result is
    stored only when the body has returned.  [depth] is the number
    of nested calls of [closure_ok] still allowed, not a number of
    interpreter frames. *)
Fixpoint closure_ok (depth : nat) (u : string) (cache : gmap string bool)
  : outcome (bool * gmap string bool) :=
  match cache !! u with
  | Some b => Return (b, cache)
  | None =>
      match depth with
      | O => Raise RecursionError
      | S d =>
          '(b, cache') ←
            closure_loop (closure_ok d) (default [] (needs !! u)) cache;
          Return (b, <[u := b]> cache')
      end
  end.

(** [{i for i in finals_raw if closure_ok(i)}] *)
Fixpoint closure_filter (depth : nat) (todo : list string)
    (cache : gmap string bool) : outcome (gset string) :=
  match todo with
  | [] => Return ∅
  | i :: rest =>
      '(ok, cache') ← closure_ok depth i cache;
      fs ← closure_filter depth rest cache';
      Return (if ok : bool then {[i]} ∪ fs else fs)
  end.
End Closure.

Definition finals_in_unlocked (av : DataFrame) : gset string :=
  let items : gset string := list_to_set (Name <$> av) in
  let used : gset string :=
    fold_left
      (λ used r,
         fold_left
           (λ used ing_norm,
              match iloc0 Name df ing_norm with
              | Some ing_original_name =>
                  if decide (ing_original_name ∈ items)
                  then {[ing_original_name]} ∪ used else used
              | None => used
              end)
           (keys (needs_norm r)) used)
      av ∅ in
  items ∖ used.

Definition finals_raw (avail : DataFrame) : gset string :=
  set_map norm (finals_in_unlocked avail).

Definition finals (avail : DataFrame) : outcome (gset string) :=
  closure_filter (needs_map avail) (items_set avail) recursion_limit
    (elements (finals_raw avail)) ∅.

Definition ingredient_items (avail : DataFrame) : gset string :=
  fold_left
    (λ acc nd,
       fold_left (λ acc k, if decide (k ∈ items_set avail)
                           then {[k]} ∪ acc else acc)
         (keys nd) acc)
    (map_to_list (needs_map avail)).*2 ∅.

(** *** Building the model *)

(** [needs_map[i].get(k, 0.0)] *)
Definition requirement (avail : DataFrame) (i k : string) : Q :=
  default 0%Q (dict_get (default [] (needs_map avail !! i)) k).

(** [xp[i]], [tmin[i]]: subscripts on keys of [items_set], which every
    dictionary built from [avail] holds (see [dict_of_is_Some]). *)
Definition xp_of (avail : DataFrame) (i : string) : Q :=
  default 0%Q (xp avail !! i).
Definition tmin_of (avail : DataFrame) (i : string) : Q :=
  default 0%Q (tmin avail !! i).

(** [yield_map.get(k, 1.0)] *)
Definition yield_of (avail : DataFrame) (k : string) : Q :=
  default 1%Q (yield_map avail !! k).

Definition cat_of (integer_solution : bool) : LpCategory :=
  if integer_solution then Integer else Continuous.

(** [x = {i: pl.LpVariable(v("x", i), lowBound=0, cat=cat) for i in items_set}] *)
Definition x (avail : DataFrame) (integer_solution : bool)
  : gmap string LpVariable :=
  set_to_map
    (λ i, (i, {| var_name := v "x" i; lowBound := 0;
                 cat := cat_of integer_solution |}))
    (items_set avail).

(** [consume = pl.lpSum(needs_map[i].get(k, 0.0) * x[i] for i in items_set)] *)
Definition consume (avail : DataFrame) (k : string) : LpAffineExpression :=
  lpSum (λ i, requirement avail i k) (elements (items_set avail)).

(** One round of the loop over [ingredient_items].  The second branch
    reads the name [ield_map], which is bound nowhere in the module:
    evaluating it raises [NameError] before any constraint is made. *)
Definition balance_constraint (avail : DataFrame) (fin : gset string)
    (k : string) : outcome LpConstraint :=
  if bool_decide (k ∈ fin) || Qltb 0 (initial_stock avail k) then
    Return {| lhs := scaled (yield_of avail k) k;
              sense := GE;
              rhs := minus_const (consume avail k) (initial_stock avail k);
              cname := v "balance_ge" k |}
  else Raise (NameError "ield_map").

Definition active_buildings (avail : DataFrame) : gset string :=
  list_to_set (Building <$> avail).

Definition MACHINE_CAP_MIN : Q := 1440.

(** The items whose first row in [avail] names [machine]. *)
Definition on_machine (avail : DataFrame) (machine : string) : list string :=
  filter (λ i, iloc0 Building avail i = Some machine)
    (elements (items_set avail)).

Definition machine_constraint (avail : DataFrame) (machine : string)
  : LpConstraint :=
  {| lhs := lpSum (tmin_of avail) (on_machine avail machine);
     sense := LE;
     rhs := number MACHINE_CAP_MIN;
     cname := "machine_cap_" +:+ machine |}.

(** [total_cap_min = max(0.0, T_hours * 60.0)] *)
Definition total_cap_min (T_hours : Q) : Q := py_max 0 (T_hours * 60).

Definition global_constraint (avail : DataFrame) (T_hours : Q)
  : LpConstraint :=
  {| lhs := lpSum (tmin_of avail) (elements (items_set avail));
     sense := LE;
     rhs := number (total_cap_min T_hours);
     cname := "global_time_cap" |}.

(** The model as it stands when [model.solve] is called. *)
Definition build_model (avail : DataFrame) (fin : gset string)
    (T_hours : Q) (integer_solution : bool) : outcome LpProblem :=
  balance ← mapM (balance_constraint avail fin)
                 (elements (ingredient_items avail));
  mret {| variables := x avail integer_solution;
          objective := lpSum (xp_of avail) (elements (items_set avail));
          constraints :=
            balance
            ++ (machine_constraint avail <$> elements (active_buildings avail))
            ++ [global_constraint avail T_hours] |}.

(** *** Extraction *)

(** [qty = int(round(val)) if integer_solution else float(val)] *)
Definition quantity (integer_solution : bool) (val : Q) : Q :=
  if integer_solution then inject_Z (py_round val) else val.

Definition tolerance : Q := 1e-6.

(** The row appended for item [i] with quantity [qty]. *)
Definition plan_row (df_cleaned avail : DataFrame) (fin : gset string)
    (i : string) (qty : Q) : PlanRow :=
  let display_name := default "" (iloc0 Name df_cleaned i) in
  {| item := display_name;
     is_final := bool_decide (i ∈ fin);
     qty := qty;
     xp_each := xp_of avail i;
     xp_total := xp_of avail i * qty;
     time_min_each := tmin_of avail i;
     time_min_total := tmin_of avail i * qty |}.

(** The body of the loop over [items_set]: the state is [rows],
    [total_xp], [total_time_used]. *)
Definition extract_step (df_cleaned avail : DataFrame) (fin : gset string)
    (value : string → option Q) (integer_solution : bool)
    (acc : list PlanRow * Q * Q) (i : string) : list PlanRow * Q * Q :=
  let '(rows, total_xp, total_time_used) := acc in
  match value i with
  | None => acc
  | Some val =>
      let qty := quantity integer_solution val in
      if Qltb tolerance qty then
        (rows ++ [plan_row df_cleaned avail fin i qty],
         (total_xp + xp_of avail i * qty)%Q,
         (total_time_used + tmin_of avail i * qty)%Q)
      else acc
  end.

Definition extract (df_cleaned avail : DataFrame) (fin : gset string)
    (value : string → option Q) (integer_solution : bool)
  : list PlanRow * Q * Q :=
  fold_left (extract_step df_cleaned avail fin value integer_solution)
    (elements (items_set avail)) ([], 0%Q, 0%Q).

(** [type_map.get(norm(x), 'Unknown')] *)
Definition production_type (avail : DataFrame) (display_name : string)
  : string :=
  default "Unknown" (type_map avail !! norm display_name).

(** The filter on the production type, then the sort.  The filter reads
    the column [item] of the frame first. *)
Definition machine_plan (avail : DataFrame) (plan_df : PlanFrame)
  : outcome PlanFrame :=
  names ← getitem plan_df "item" item;
  let kept :=
    filter (λ r, production_type avail (item r) = "Machine/Processed")
      (records plan_df) in
  mret {| columns := columns plan_df; records := sort_values kept |}.

(** *** The whole function *)

Definition optimize_plan_notebook (df_cleaned : DataFrame)
    (player_level : Z) (T_hours : Q) (integer_solution : bool)
  : outcome Result :=
  let avail := unlocked df_cleaned player_level in
  fin ← finals avail;
  model ← build_model avail fin T_hours integer_solution;
  let '(status, value) := solve model in
  if decide (status ≠ Optimal) then
    mret {| status := status;
            XP_total := 0;
            XP_per_hour := Fin 0;
            total_time_used_min := 0;
            time_capacity_min := T_hours * 60;
            plan := DataFrame_of_columns cols |}
  else
    let '(rows, total_xp, total_time_used) :=
      extract df_cleaned avail fin value integer_solution in
    plan_df ← machine_plan avail (DataFrame_of_rows rows);
    mret {| status := status;
            XP_total := total_xp;
            XP_per_hour :=
              if Qltb 0 T_hours then Fin (total_xp / T_hours) else NaN;
            total_time_used_min := total_time_used;
            time_capacity_min := total_cap_min T_hours;
            plan := plan_df |}.

End Optimizer.

(** ** [norm] on the bytes of a name

    A string is the sequence of its UTF-8 bytes.  [norm] replaces the
    non-breaking space by a space and the en and em dashes by a hyphen,
    collapses white space, strips both ends and lowers the case.  The
    definition below follows it on the bytes; it is the function [norm]
    on every name whose characters outside ASCII are among those three
    (white space and letter case are decided on ASCII characters). *)

(** [s.replace(old, new)] for a non-empty [old]; [skip] counts the
    characters of a match still to be dropped. *)
Fixpoint replace_from (old new : string) (skip : nat) (s : string) : string :=
  match s with
  | EmptyString => EmptyString
  | String c s' =>
      match skip with
      | S n => replace_from old new n s'
      | O =>
          if String.prefix old s
          then new +:+ replace_from old new (String.length old - 1) s'
          else String c (replace_from old new 0 s')
      end
  end.

Definition replace (old new s : string) : string := replace_from old new 0 s.

Definition bytes (l : list nat) : string :=
  fold_right (λ n s, String (ascii_of_nat n) s) EmptyString l.

(** U+00A0, U+2013 and U+2014 in UTF-8 *)
Definition nbsp : string := bytes [194; 160].
Definition en_dash : string := bytes [226; 128; 147].
Definition em_dash : string := bytes [226; 128; 148].

Definition is_space (c : ascii) : bool :=
  let n := nat_of_ascii c in
  ((9 <=? n) && (n <=? 13) || (28 <=? n) && (n <=? 32))%nat.

(** [re.sub(r"\s+", " ", s)] *)
Fixpoint collapse_spaces (in_run : bool) (s : string) : string :=
  match s with
  | EmptyString => EmptyString
  | String c s' =>
      if is_space c then
        if in_run then collapse_spaces true s'
        else String " " (collapse_spaces true s')
      else String c (collapse_spaces false s')
  end.

Fixpoint rstrip (s : string) : string :=
  match s with
  | EmptyString => EmptyString
  | String c s' =>
      match rstrip s' with
      | EmptyString => if is_space c then EmptyString else String c EmptyString
      | t => String c t
      end
  end.

Fixpoint lstrip (s : string) : string :=
  match s with
  | EmptyString => EmptyString
  | String c s' => if is_space c then lstrip s' else s
  end.

Definition norm_ascii (s : string) : string :=
  let s := replace em_dash "-" (replace en_dash "-" (replace nbsp " " s)) in
  lower (rstrip (lstrip (collapse_spaces false s))).

(** ** Sample catalogues *)

Module Samples.

Definition wheat : Item :=
  {| Name := "Wheat"; name_norm := "wheat"; Level_num := 1; XP := 0;
     time_min := 0; needs_norm := []; Yield_qty := 1;
     Building := "Field"; Production_Type := "Crop"; Source := "Field" |}.

Definition bread : Item :=
  {| Name := "Bread"; name_norm := "bread"; Level_num := 2; XP := 5;
     time_min := 10; needs_norm := [("wheat", 2%Q)]; Yield_qty := 1;
     Building := "Bakery"; Production_Type := "Machine/Processed";
     Source := "Bakery" |}.

(** One raw item and one machine item that takes two units of it. *)
Definition farm : DataFrame := [wheat; bread].

Definition milk : Item :=
  {| Name := "Milk"; name_norm := "milk"; Level_num := 1; XP := 0;
     time_min := 0; needs_norm := []; Yield_qty := 1;
     Building := "Cow Pasture"; Production_Type := "Animal Good";
     Source := "Cow" |}.

Definition butter : Item :=
  {| Name := "Butter"; name_norm := "butter"; Level_num := 2; XP := 5;
     time_min := 10; needs_norm := [("milk", 2%Q)]; Yield_qty := 1;
     Building := "Dairy"; Production_Type := "Machine/Processed";
     Source := "Dairy" |}.

(** The same shape, with a raw item that is not a crop. *)
Definition dairy : DataFrame := [milk; butter].

(** An item that lists itself among its ingredients. *)
Definition ouroboros : Item :=
  {| Name := "Ouroboros"; name_norm := "ouroboros"; Level_num := 1;
     XP := 1; time_min := 1; needs_norm := [("ouroboros", 1%Q)];
     Yield_qty := 1; Building := "Pit";
     Production_Type := "Machine/Processed"; Source := "Pit" |}.

(** A recipe that depends on the self-referential item. *)
Definition charm : Item :=
  {| Name := "Charm"; name_norm := "charm"; Level_num := 1;
     XP := 9; time_min := 5; needs_norm := [("ouroboros", 1%Q)];
     Yield_qty := 1; Building := "Altar";
     Production_Type := "Machine/Processed"; Source := "Altar" |}.

Definition cursed : DataFrame := [charm; ouroboros].

Definition apple : Item :=
  {| Name := "Apple"; name_norm := "apple"; Level_num := 1; XP := 7;
     time_min := 16; needs_norm := []; Yield_qty := 1;
     Building := "Apple Tree"; Production_Type := "Tree Crop";
     Source := "Apple tree" |}.

Definition apple_pie : Item :=
  {| Name := "Apple Pie"; name_norm := "apple pie"; Level_num := 3;
     XP := 31; time_min := 120; needs_norm := [("apple", 3%Q)];
     Yield_qty := 1; Building := "Pie Oven";
     Production_Type := "Machine/Processed"; Source := "Pie Oven" |}.

Definition apple_jam : Item :=
  {| Name := "Apple Jam"; name_norm := "apple jam"; Level_num := 3;
     XP := 26; time_min := 300; needs_norm := [("apple", 2%Q)];
     Yield_qty := 1; Building := "Jam Maker";
     Production_Type := "Machine/Processed"; Source := "Jam Maker" |}.

(** A crop and two machine goods made from it. *)
Definition orchard : DataFrame := [apple; apple_jam; apple_pie].

Definition sugarcane : Item :=
  {| Name := "Sugarcane"; name_norm := "sugarcane"; Level_num := 1; XP := 3;
     time_min := 30; needs_norm := []; Yield_qty := 2;
     Building := "Field"; Production_Type := "Crop"; Source := "Field" |}.

Definition brown_sugar : Item :=
  {| Name := "Brown Sugar"; name_norm := "brown sugar"; Level_num := 2;
     XP := 32; time_min := 20; needs_norm := [("sugarcane", 1%Q)];
     Yield_qty := 1; Building := "Sugar Mill";
     Production_Type := "Machine/Processed"; Source := "Sugar Mill" |}.

Definition syrup : Item :=
  {| Name := "Syrup"; name_norm := "syrup"; Level_num := 3;
     XP := 18; time_min := 40; needs_norm := [("sugarcane", 3%Q)];
     Yield_qty := 1; Building := "Sugar Mill";
     Production_Type := "Machine/Processed"; Source := "Sugar Mill" |}.

(** A crop that yields two units a harvest, and two goods of one
    machine that take one and three units of it. *)
Definition mill : DataFrame := [sugarcane; brown_sugar; syrup].

(** A solver answer for [orchard]: two apples, four jars, one pie. *)
Definition bumper : LpProblem → SolverAnswer :=
  λ _, (Optimal,
        λ i, if decide (i = "apple") then Some 2%Q
             else if decide (i = "apple jam") then Some 4%Q
             else if decide (i = "apple pie") then Some 1%Q
             else None).

(** What [bumper] assigns, as an assignment of the variables. *)
Definition bumper_values (i : string) : Q :=
  if decide (i = "apple") then 2%Q
  else if decide (i = "apple jam") then 4%Q
  else if decide (i = "apple pie") then 1%Q
  else 0%Q.

(** A second row for bread, made elsewhere and with other figures. *)
Definition bread_at_the_mill : Item :=
  {| Name := "Bread"; name_norm := "bread"; Level_num := 2; XP := 8;
     time_min := 25; needs_norm := [("wheat", 3%Q)]; Yield_qty := 2;
     Building := "Mill"; Production_Type := "Machine/Processed";
     Source := "Mill" |}.

(** A catalogue with two rows of one name. *)
Definition doubled : DataFrame := [wheat; bread; bread_at_the_mill].

(** An answer with values that are not whole. *)
Definition fractional : LpProblem → SolverAnswer :=
  λ _, (Optimal,
        λ i, if decide (i = "apple") then Some 0.4%Q
             else if decide (i = "apple jam") then Some 3.6%Q
             else if decide (i = "apple pie") then Some 1%Q
             else None).

(** A solver answer: six loaves, no wheat grown. *)
Definition six_loaves : LpProblem → SolverAnswer :=
  λ _, (Optimal,
        λ i, if decide (i = "bread") then Some 6%Q else Some 0%Q).

(** A solver answer that produces nothing. *)
Definition idle : LpProblem → SolverAnswer :=
  λ _, (Optimal, λ _, Some 0%Q).

Definition gave_up : LpProblem → SolverAnswer :=
  λ _, (Infeasible, λ _, None).

End Samples.

Import Samples.

(** ** Vocabulary of the statements *)

(** Some unlocked row of item [k] has a crop source. *)
Definition crop_source (avail : DataFrame) (k : string) : bool :=
  existsb
    (λ r, bool_decide (name_norm r = k)
          && re_search_I CROP_SOURCE_PATTERNS (Source r))
    avail.

(** The row that stands for item [i] in the catalogue: the dictionaries
    are filled row by row, so of several rows with one name the last. *)
Definition row_of (avail : DataFrame) (i : string) : option Item :=
  last (filter (λ r, name_norm r = i) avail).

(** Units of [k] that the recipe of [i] takes: the amount its row lists
    for [k], nothing when the recipe does not list [k]. *)
Definition recipe_amount (avail : DataFrame) (i k : string) : Q :=
  match row_of avail i with
  | Some r => default 0%Q (dict_get (needs_norm r) k)
  | None => 0%Q
  end.

(** Minutes one unit of [i] takes, as its row says. *)
Definition minutes (avail : DataFrame) (i : string) : Q :=
  match row_of avail i with
  | Some r => time_min r
  | None => 0%Q
  end.

(** [Σ requirement[i][k] * a[i]] over the unlocked items, read off the
    rows. *)
Definition demand (avail : DataFrame) (k : string) (a : string → Q) : Q :=
  sumQ ((λ i, recipe_amount avail i k * a i)%Q <$> elements (items_set avail)).

(** [Σ time[i] * a[i]] over a list of items, read off the rows. *)
Definition load (avail : DataFrame) (items : list string) (a : string → Q) : Q :=
  sumQ ((λ i, minutes avail i * a i)%Q <$> items).

(** The ranking the plan is sorted by, spelled out. *)
Definition plan_order (a b : PlanRow) : Prop :=
  (is_final a = true ∧ is_final b = false)
  ∨ (is_final a = is_final b
     ∧ ((xp_each b < xp_each a)%Q
        ∨ ((xp_each a == xp_each b)%Q
           ∧ (time_min_each a <= time_min_each b)%Q))).

(** Item [i] with its quantity, when the solver set a value for it and
    the quantity (the value, rounded in integer mode) exceeds the
    tolerance. *)
Definition keep (value : string → option Q) (integer_solution : bool)
    (i : string) : option (string * Q) :=
  match value i with
  | Some val =>
      let q := quantity integer_solution val in
      if Qltb tolerance q then Some (i, q) else None
  | None => None
  end.

(** The items with above-tolerance quantities in the solver's
    assignment, before any filter. *)
Definition produced (avail : DataFrame) (value : string → option Q)
    (integer_solution : bool) : list (string * Q) :=
  omap (keep value integer_solution) (elements (items_set avail)).

(** The rows made for them. *)
Definition unfiltered_rows (df_cleaned avail : DataFrame) (fin : gset string)
    (value : string → option Q) (integer_solution : bool) : list PlanRow :=
  (λ p, plan_row df_cleaned avail fin p.1 p.2)
    <$> produced avail value integer_solution.

(** An item is closed when each of its ingredients is unlocked and
    closed in turn. *)
Inductive closure_holds (needs : gmap string (list (string * Q)))
    (items : gset string) : string → Prop :=
  | closure_holds_intro (u : string) :
      (∀ ing, ing ∈ keys (default [] (needs !! u)) →
              ing ∈ items ∧ closure_holds needs items ing) →
      closure_holds needs items u.

(** Every entry of the cache tells the truth about its item. *)
Definition cache_sound (needs : gmap string (list (string * Q)))
    (items : gset string) (cache : gmap string bool) : Prop :=
  ∀ u b, cache !! u = Some b → (b = true ↔ closure_holds needs items u).

(** A catalogue as the ingestion step is meant to deliver it: one row
    per item, the unlocked rows taken from it, and every item keyed by
    its normalised name. *)
Definition well_formed (norm : string → string) (df avail : DataFrame) : Prop :=
  NoDup (name_norm <$> df)
  ∧ (∀ r, r ∈ avail → r ∈ df)
  ∧ (∀ r, r ∈ avail → norm (Name r) = name_norm r).

(** The ingredient relation among unlocked items goes down a rank. *)
Definition ranked (needs : gmap string (list (string * Q)))
    (items : gset string) (rank : string → nat) : Prop :=
  ∀ u ing, ing ∈ keys (default [] (needs !! u)) → ing ∈ items →
           rank ing < rank u.

(** ** The page: what is shown of a result

    The script below the optimizer reads the result and builds the table
    it displays.  Only the data it computes is modelled; the widgets are
    not. *)

(** [finals_set = finals_in_unlocked(df[df["Level_num"] <= player_level])] *)
Definition finals_set (df : DataFrame) (player_level : Z) : gset string :=
  finals_in_unlocked df (unlocked df player_level).

(** [plan.empty]: a frame one of whose axes has length zero. *)
Definition empty (frame : PlanFrame) : bool :=
  match columns frame, records frame with
  | _ :: _, _ :: _ => false
  | _, _ => true
  end.

(** [frame.sort_values(col, ascending=False)] on one numeric column.
    Ties come in the order the merge leaves them; the statements below
    use the order of the keys and the rows kept, nothing else. *)
Definition desc_by (key : PlanRow → Q) (a b : PlanRow) : Prop :=
  Qle_bool (key b) (key a) = true.

#[global] Instance desc_by_dec (key : PlanRow → Q) : RelDecision (desc_by key).
Proof. intros a b. unfold desc_by. apply _. Defined.

Definition sort_values_desc (key : PlanRow → Q) (rows : list PlanRow)
  : list PlanRow :=
  merge_sort (desc_by key) rows.

(** The frame [view] handed to [st.dataframe]. *)
Definition view (plan : PlanFrame) (finals_set : gset string)
    (show_only_finals : bool) (sort_choice : string) : list PlanRow :=
  let view := records plan in
  let view :=
    if show_only_finals
    then filter (λ r, item r ∈ finals_set) view else view in
  if decide (sort_choice = "XP total (desc)")
  then sort_values_desc xp_total view
  else if decide (sort_choice = "Time total (desc)")
  then sort_values_desc time_min_total view
  else sort_values view.

(** What the page puts under "Plan". *)
Inductive Shown : Type :=
  | Error (status : LpStatus)
  | Warning
  | Table (view : list PlanRow).

Definition shown (res : Result) (finals_set : gset string)
    (show_only_finals : bool) (sort_choice : string) : Shown :=
  if decide (status res ≠ Optimal) then Error (status res)
  else if empty (plan res) then Warning
  else Table (view (plan res) finals_set show_only_finals sort_choice).

(** [chart_base = view.loc[view["xp_total"] > 0]] *)
Definition chart_base (view : list PlanRow) : list PlanRow :=
  filter (λ r, Qltb 0 (xp_total r) = true) view.

(** The characters of a string. *)
Definition chars (s : string) : list ascii := list_ascii_of_string s.

(** A string of ASCII characters. *)
Definition is_ascii (s : string) : Prop :=
  Forall (λ c, nat_of_ascii c < 128) (chars s).

(** * Properties *)

(** ** Numbers and strings *)

Lemma Qltb_lt (a b : Q) : Qltb a b = true ↔ (a < b)%Q.
Proof.
  unfold Qltb. rewrite negb_true_iff, <- not_true_iff_false, Qle_bool_iff.
  split; [apply Qnot_le_lt | apply Qlt_not_le].
Qed.

(** Ties go to the even neighbour; everything else to the nearest. *)
Example py_round_samples :
  py_round 0.4 = 0%Z ∧ py_round 0.5 = 0%Z ∧ py_round 1.5 = 2%Z
  ∧ py_round 2.5 = 2%Z ∧ py_round 3.6 = 4%Z ∧ py_round (-0.5) = 0%Z
  ∧ py_round 6 = 6%Z.
Proof. repeat split; vm_compute; reflexivity. Qed.

Lemma prefix_append (p s : string) :
  String.prefix p s = true ↔ ∃ t, s = p +:+ t.
Proof.
  revert s. induction p as [|c p IH]; intros s.
  - split; [intros _; by exists s|by destruct s].
  - destruct s as [|d s]; [split; [done|intros [t [=]]]|].
    cbn [String.prefix String.append].
    destruct (Ascii.ascii_dec c d) as [->|Hne].
    + rewrite IH. split; intros [t Ht]; exists t; [by rewrite Ht|].
      by injection Ht.
    + split; [done|]. intros [t [= ? ?]]. done.
Qed.

(** [contains p s] holds exactly when [p] is a substring of [s]. *)
Lemma contains_substring (p s : string) :
  contains p s = true ↔ ∃ a b, s = a +:+ p +:+ b.
Proof.
  induction s as [|c s IH]; cbn [contains].
  - destruct (String.prefix p "") eqn:E.
    + split; [|done]. intros _. apply prefix_append in E as [t Ht].
      exists "", t. done.
    + split; [done|]. intros (a & b & H).
      destruct a; [|done]. cbn in H.
      assert (String.prefix p "" = true) by (apply prefix_append; eauto).
      congruence.
  - destruct (String.prefix p (String c s)) eqn:E.
    + split; [|done]. intros _. apply prefix_append in E as [t Ht].
      exists "", t. done.
    + rewrite IH. split.
      * intros (a & b & ->). exists (String c a), b. done.
      * intros (a & b & H). destruct a as [|c' a].
        -- cbn in H.
           assert (String.prefix p (String c s) = true)
             by (apply prefix_append; eauto).
           congruence.
        -- injection H as -> ->. eauto.
Qed.

(** The crop test: some word of the pattern is a substring of the
    source, both taken in lower case. *)
Lemma re_search_I_substring (words : list string) (s : string) :
  re_search_I words s = true
  ↔ ∃ w a b, w ∈ words ∧ lower s = a +:+ lower w +:+ b.
Proof.
  unfold re_search_I. rewrite existsb_exists. split.
  - intros (w & Hw & H). apply contains_substring in H as (a & b & H).
    exists w, a, b. by rewrite list_elem_of_In.
  - intros (w & a & b & Hw & H). exists w. rewrite <- list_elem_of_In.
    split; [done|]. apply contains_substring. eauto.
Qed.

(** ** Raising computations *)

Lemma bind_Return {A B} (f : A → outcome B) (m : outcome A) (b : B) :
  m ≫= f = Return b → ∃ a, m = Return a ∧ f a = Return b.
Proof. destruct m as [a|e]; [eauto | discriminate]. Qed.

Lemma mapM_Return {A B} (f : A → outcome B) (l : list A) (ys : list B) :
  mapM f l = Return ys → Forall2 (λ a y, f a = Return y) l ys.
Proof.
  revert ys. induction l as [|a l IH]; intros ys; cbn.
  - intros [= <-]. constructor.
  - destruct (f a) as [y|e] eqn:Ea; cbn; [|discriminate].
    destruct (mapM f l) as [ys'|e] eqn:El; cbn; [|discriminate].
    intros [= <-]. constructor; auto.
Qed.

Lemma mapM_Raise {A B} (f : A → outcome B) (l : list A) (a : A) (e : exn) :
  a ∈ l → f a = Raise e →
  (∀ a' e', f a' = Raise e' → e' = e) →
  mapM f l = Raise e.
Proof.
  intros Hin Ha Hall. induction Hin as [a l|a b l Hin IH]; cbn.
  - by rewrite Ha.
  - destruct (f b) as [y|e'] eqn:Eb; cbn.
    + by rewrite IH.
    + f_equal. eauto.
Qed.

(** ** Dictionaries built from the rows *)

Lemma dict_of_fold {V} (f : Item → V) (rows : DataFrame) (m : gmap string V)
    (k : string) :
  fold_left (λ m r, <[name_norm r := f r]> m) rows m !! k
  = match last (filter (λ r, name_norm r = k) rows) with
    | Some r => Some (f r)
    | None => m !! k
    end.
Proof.
  revert m. induction rows as [|r rows IH]; intros m; [done|].
  cbn [fold_left]. rewrite IH, filter_cons.
  destruct (decide (name_norm r = k)) as [Hk|Hk].
  - destruct (filter _ rows) as [|r' l] eqn:E.
    + cbn. by rewrite Hk, lookup_insert_eq.
    + rewrite last_cons_cons.
      destruct (last (r' :: l)) eqn:El; [done|]. by apply last_None in El.
  - destruct (last _); [done|]. by rewrite lookup_insert_ne.
Qed.

(** Every key of [items_set] is a key of a dictionary built by
    [dict_of], so the subscripts [xp[i]], [tmin[i]], [needs_map[i]]
    never fail on such keys. *)
Lemma dict_of_is_Some {V} (f : Item → V) (avail : DataFrame) (i : string) :
  i ∈ items_set avail ↔ is_Some (dict_of f avail !! i).
Proof.
  unfold items_set, dict_of. rewrite elem_of_list_to_set, list_elem_of_fmap.
  rewrite dict_of_fold, lookup_empty. split.
  - intros (r & -> & Hr).
    assert (Hin : r ∈ filter (λ r', name_norm r' = name_norm r) avail)
      by (apply list_elem_of_filter; done).
    destruct (filter _ avail) as [|r0 l] eqn:E using rev_ind;
      [by apply not_elem_of_nil in Hin|].
    rewrite last_snoc. eauto.
  - destruct (last _) as [r|] eqn:E; [|by intros [? ?]].
    intros _. apply last_Some in E as [l E].
    assert (Hin : r ∈ filter (λ r', name_norm r' = i) avail)
      by (rewrite E; set_solver).
    apply list_elem_of_filter in Hin as [? ?]. eauto.
Qed.

Lemma dict_of_lookup_Some {V} (f : Item → V) (rows : DataFrame)
    (k : string) (x : V) :
  dict_of f rows !! k = Some x →
  ∃ r, r ∈ rows ∧ name_norm r = k ∧ f r = x.
Proof.
  unfold dict_of. rewrite dict_of_fold, lookup_empty.
  destruct (last _) as [r|] eqn:E; [|done]. intros [= <-].
  apply last_Some in E as [l E].
  assert (Hin : r ∈ filter (λ r', name_norm r' = k) rows)
    by (rewrite E; apply elem_of_app; right; by apply list_elem_of_singleton).
  apply list_elem_of_filter in Hin as [? ?]. eauto.
Qed.

(** The positional reads [.iloc[0]] are made on keys of [items_set]
    and find a row. *)
Lemma iloc0_is_Some {V} (col : Item → V) (frame : DataFrame) (i : string) :
  i ∈ items_set frame → is_Some (iloc0 col frame i).
Proof.
  unfold items_set, iloc0.
  rewrite elem_of_list_to_set, list_elem_of_fmap. intros (r & -> & Hr).
  assert (Hin : r ∈ filter (λ r', name_norm r' = name_norm r) frame)
    by (apply list_elem_of_filter; done).
  destruct (filter _ frame); [by apply not_elem_of_nil in Hin|].
  cbn. eauto.
Qed.

Lemma display_name_is_Some (df_cleaned : DataFrame) (player_level : Z)
    (i : string) :
  i ∈ items_set (unlocked df_cleaned player_level) →
  is_Some (iloc0 Name df_cleaned i).
Proof.
  intros Hi. apply iloc0_is_Some. revert Hi. unfold items_set, unlocked.
  rewrite !elem_of_list_to_set, !list_elem_of_fmap.
  intros (r & -> & Hr). apply list_elem_of_filter in Hr as [_ Hr]. eauto.
Qed.

(** The dictionary [x] holds a variable for every unlocked item. *)
Lemma x_is_Some (avail : DataFrame) (integer_solution : bool) (i : string) :
  i ∈ items_set avail ↔ is_Some (x avail integer_solution !! i).
Proof.
  unfold x, is_Some. setoid_rewrite lookup_set_to_map; [|naive_solver].
  naive_solver.
Qed.

Lemma initial_stock_fold (rows : DataFrame) (m : gmap string Q) (k : string) :
  fold_left
    (λ m r, if re_search_I CROP_SOURCE_PATTERNS (Source r)
            then <[name_norm r := 30%Q]> m else m)
    rows m !! k
  = if crop_source rows k then Some 30%Q else m !! k.
Proof.
  revert m. induction rows as [|r rows IH]; intros m; [done|].
  cbn [fold_left crop_source existsb]. rewrite IH.
  fold (crop_source rows k). destruct (crop_source rows k).
  { by rewrite orb_true_r. }
  rewrite orb_false_r.
  destruct (re_search_I _ (Source r)).
  - rewrite andb_true_r. case_bool_decide as Hk.
    + by rewrite Hk, lookup_insert_eq.
    + by rewrite lookup_insert_ne.
  - by rewrite andb_false_r.
Qed.

Lemma initial_stock_crop (avail : DataFrame) (k : string) :
  initial_stock avail k = if crop_source avail k then 30%Q else 0%Q.
Proof.
  unfold initial_stock, initial_stock_map.
  rewrite initial_stock_fold, lookup_empty. by destruct (crop_source _ _).
Qed.

Lemma crop_source_true (avail : DataFrame) (k : string) :
  crop_source avail k = true
  ↔ ∃ r, r ∈ avail ∧ name_norm r = k
         ∧ re_search_I CROP_SOURCE_PATTERNS (Source r) = true.
Proof.
  unfold crop_source. rewrite existsb_exists. split.
  - intros (r & Hin & H). apply andb_true_iff in H as [Hk Hs].
    apply bool_decide_eq_true in Hk. exists r.
    by rewrite list_elem_of_In.
  - intros (r & Hin & Hk & Hs). exists r. rewrite <- list_elem_of_In.
    split; [done|]. rewrite Hs, andb_true_r. by apply bool_decide_eq_true.
Qed.

(** ** Initial stock *)

(** With one row per item the stock of a row's item is decided by the
    source of that very row. *)
Lemma initial_stock_of_row (avail : DataFrame) (r : Item) :
  NoDup (name_norm <$> avail) → r ∈ avail →
  initial_stock avail (name_norm r)
  = if re_search_I CROP_SOURCE_PATTERNS (Source r) then 30%Q else 0%Q.
Proof.
  intros Hnd Hr. rewrite initial_stock_crop.
  destruct (re_search_I CROP_SOURCE_PATTERNS (Source r)) eqn:Hs.
  - assert (H : crop_source avail (name_norm r) = true)
      by (apply crop_source_true; eauto).
    by rewrite H.
  - destruct (crop_source avail (name_norm r)) eqn:E; [|done].
    apply crop_source_true in E as (r' & Hr' & Hk & Hs').
    assert (r' = r); [|congruence].
    apply list_elem_of_lookup in Hr as [i Hi], Hr' as [j Hj].
    assert (i = j); [|congruence].
    eapply NoDup_lookup; [exact Hnd| |]; rewrite list_lookup_fmap.
    + by rewrite Hi.
    + by rewrite Hj; cbn; rewrite Hk.
Qed.

(** C9. For an unlocked item [k] one of whose rows has a [Source]
    containing "Field", "Tree" or "Bush" (letter case ignored) the
    initial stock read by the balance constraints is exactly 30; for
    every other item it is 0; and a balance constraint that is made for
    an item outside the finals, hence only by virtue of its stock, is
    made for such a crop item and carries the stock of 30. *)
Theorem initial_stock_is_30_for_crops_else_0
    (df_cleaned : DataFrame) (player_level : Z) (k : string) :
  let avail := unlocked df_cleaned player_level in
  ((∃ r, r ∈ avail ∧ name_norm r = k
         ∧ re_search_I CROP_SOURCE_PATTERNS (Source r) = true) →
   initial_stock avail k = 30%Q)
  ∧ ((∀ r, r ∈ avail → name_norm r = k →
           re_search_I CROP_SOURCE_PATTERNS (Source r) = false) →
     initial_stock avail k = 0%Q)
  ∧ (∀ fin c, balance_constraint avail fin k = Return c →
       rhs c = minus_const (consume avail k) (initial_stock avail k)
       ∧ (k ∉ fin →
          initial_stock avail k = 30%Q
          ∧ ∃ r, r ∈ avail ∧ name_norm r = k
                 ∧ re_search_I CROP_SOURCE_PATTERNS (Source r) = true)).
Proof.
  intros avail. rewrite initial_stock_crop. split; [|split].
  - intros H. apply crop_source_true in H. by rewrite H.
  - intros H. destruct (crop_source avail k) eqn:E; [|done].
    apply crop_source_true in E as (r & Hin & Hk & Hs).
    rewrite (H r Hin Hk) in Hs. discriminate.
  - intros fin c. unfold balance_constraint.
    rewrite initial_stock_crop.
    destruct (crop_source avail k) eqn:E.
    + rewrite orb_true_r. intros [= <-]. split; [done|].
      intros _. split; [done|]. by apply crop_source_true.
    + rewrite orb_false_r. case_bool_decide; [|discriminate].
      intros [= <-]. split; [done|]. done.
Qed.

(** ** The exact-balance branch *)

Lemma balance_constraint_raises (avail : DataFrame) (fin : gset string)
    (k : string) (e : exn) :
  balance_constraint avail fin k = Raise e → e = NameError "ield_map".
Proof.
  unfold balance_constraint. destruct (_ || _); [discriminate|].
  by intros [= <-].
Qed.

Lemma balance_constraint_exact (avail : DataFrame) (fin : gset string)
    (k : string) :
  k ∉ fin → (initial_stock avail k == 0)%Q →
  balance_constraint avail fin k = Raise (NameError "ield_map").
Proof.
  intros Hfin Hstock. unfold balance_constraint.
  rewrite bool_decide_eq_false_2 by done.
  destruct (Qltb 0 (initial_stock avail k)) eqn:E; [|done].
  apply Qltb_lt in E. rewrite Hstock in E. by apply Qlt_irrefl in E.
Qed.

(** ** Evaluating the expressions of the model *)

Lemma eval_lpSum (a : string → Q) (coef : string → Q) (items : list string) :
  (eval a (lpSum coef items) == sumQ ((λ i, coef i * a i)%Q <$> items))%Q.
Proof.
  unfold eval, lpSum; cbn [terms constant].
  rewrite <- list_fmap_compose, Qplus_0_r. reflexivity.
Qed.

Lemma eval_scaled (a : string → Q) (c : Q) (k : string) :
  (eval a (scaled c k) == c * a k)%Q.
Proof. unfold eval, scaled, sumQ; cbn. ring. Qed.

Lemma eval_minus_const (a : string → Q) (e : LpAffineExpression) (c : Q) :
  (eval a (minus_const e c) == eval a e - c)%Q.
Proof. unfold eval, minus_const; cbn [terms constant]. ring. Qed.

Lemma eval_number (a : string → Q) (c : Q) : (eval a (number c) == c)%Q.
Proof. unfold eval, number, sumQ; cbn. ring. Qed.

(** The coefficients of the model are the entries of the rows. *)
Lemma requirement_recipe_amount (avail : DataFrame) (i k : string) :
  requirement avail i k = recipe_amount avail i k.
Proof.
  unfold requirement, recipe_amount, row_of, needs_map, dict_of.
  rewrite dict_of_fold, lookup_empty. by destruct (last _).
Qed.

Lemma tmin_of_minutes (avail : DataFrame) (i : string) :
  tmin_of avail i = minutes avail i.
Proof.
  unfold tmin_of, minutes, row_of, tmin, dict_of.
  rewrite dict_of_fold, lookup_empty. by destruct (last _).
Qed.

Lemma yield_of_row (avail : DataFrame) (k : string) (r : Item) :
  row_of avail k = Some r → yield_of avail k = Yield_qty r.
Proof.
  unfold yield_of, row_of, yield_map, dict_of. intros Hr.
  by rewrite dict_of_fold, Hr.
Qed.

Lemma row_of_is_Some (avail : DataFrame) (i : string) :
  i ∈ items_set avail → ∃ r, row_of avail i = Some r ∧ r ∈ avail.
Proof.
  intros Hi. apply (dict_of_is_Some name_norm) in Hi as [n Hn].
  unfold dict_of in Hn. rewrite dict_of_fold, lookup_empty in Hn.
  unfold row_of. destruct (last _) as [r|] eqn:E; [|done].
  exists r. split; [done|].
  apply last_Some in E as [l E].
  assert (Hin : r ∈ filter (λ r', name_norm r' = i) avail)
    by (rewrite E; apply elem_of_app; right; by apply list_elem_of_singleton).
  by apply list_elem_of_filter in Hin as [_ ?].
Qed.

Lemma eval_consume (avail : DataFrame) (k : string) (a : string → Q) :
  (eval a (consume avail k) == demand avail k a)%Q.
Proof.
  unfold consume, demand. rewrite eval_lpSum.
  rewrite (list_fmap_ext (λ i, requirement avail i k * a i)%Q
             (λ i, recipe_amount avail i k * a i)%Q); [reflexivity|].
  intros _ i _. by rewrite requirement_recipe_amount.
Qed.

Lemma load_tmin (avail : DataFrame) (items : list string) (a : string → Q) :
  load avail items a = sumQ ((λ i, tmin_of avail i * a i)%Q <$> items).
Proof.
  unfold load. f_equal. apply list_fmap_ext.
  intros _ i _. by rewrite tmin_of_minutes.
Qed.

Lemma eval_lpSum_tmin (avail : DataFrame) (items : list string)
    (a : string → Q) :
  (eval a (lpSum (tmin_of avail) items) == load avail items a)%Q.
Proof. rewrite load_tmin. apply eval_lpSum. Qed.

(** ** Shape of the built model *)

Lemma build_model_Return (avail : DataFrame) (fin : gset string)
    (T_hours : Q) (integer_solution : bool) (m : LpProblem) :
  build_model avail fin T_hours integer_solution = Return m →
  ∃ balance,
    Forall2 (λ k c, balance_constraint avail fin k = Return c)
      (elements (ingredient_items avail)) balance
    ∧ constraints m
      = balance
        ++ (machine_constraint avail <$> elements (active_buildings avail))
        ++ [global_constraint avail T_hours].
Proof.
  unfold build_model. intros H.
  apply bind_Return in H as (balance & Hb & [= <-]).
  exists balance. split; [by apply mapM_Return|done].
Qed.

Lemma balance_constraint_in_model (avail : DataFrame) (fin : gset string)
    (T_hours : Q) (integer_solution : bool) (m : LpProblem) (k : string) :
  build_model avail fin T_hours integer_solution = Return m →
  k ∈ ingredient_items avail →
  ∃ c, c ∈ constraints m ∧ balance_constraint avail fin k = Return c.
Proof.
  intros Hm Hk. apply build_model_Return in Hm as (balance & Hb & ->).
  apply elem_of_elements, list_elem_of_lookup in Hk as [n Hn].
  destruct (Forall2_lookup_l _ _ _ _ _ Hb Hn) as (c & Hc & Hkc).
  exists c. split; [|done].
  apply elem_of_app. left. by eapply list_elem_of_lookup_2.
Qed.

(** An item is in [ingredient_items] when it is unlocked and some
    unlocked item lists it as an ingredient. *)
Lemma elem_of_ingredient_items (avail : DataFrame) (k : string) :
  k ∈ ingredient_items avail
  ↔ k ∈ items_set avail
    ∧ ∃ i nd, needs_map avail !! i = Some nd ∧ k ∈ keys nd.
Proof.
  unfold ingredient_items.
  assert (Hinner : ∀ (ks : list string) (acc : gset string),
    k ∈ fold_left (λ acc k', if decide (k' ∈ items_set avail)
                             then {[k']} ∪ acc else acc) ks acc
    ↔ k ∈ acc ∨ (k ∈ items_set avail ∧ k ∈ ks)).
  { induction ks as [|k' ks IH]; intros acc; cbn [fold_left].
    - set_solver.
    - rewrite IH. destruct (decide (k' ∈ items_set avail)); set_solver. }
  assert (Houter : ∀ (nds : list (list (string * Q))) (acc : gset string),
    k ∈ fold_left
          (λ acc nd,
             fold_left (λ acc k', if decide (k' ∈ items_set avail)
                                  then {[k']} ∪ acc else acc)
               (keys nd) acc) nds acc
    ↔ k ∈ acc ∨ (k ∈ items_set avail ∧ ∃ nd, nd ∈ nds ∧ k ∈ keys nd)).
  { induction nds as [|nd nds IH]; intros acc; cbn [fold_left].
    - set_solver.
    - rewrite IH, Hinner. set_solver. }
  rewrite Houter. split.
  - intros [H|[Hk (nd & Hnd & Hin)]]; [set_solver|]. split; [done|].
    apply list_elem_of_fmap in Hnd as ([i nd'] & -> & Hnd).
    apply elem_of_map_to_list in Hnd. eauto.
  - intros [Hk (i & nd & Hnd & Hin)]. right. split; [done|].
    exists nd. split; [|done].
    apply list_elem_of_fmap. exists (i, nd). split; [done|].
    by apply elem_of_map_to_list.
Qed.

(** ** Time capacity *)

Lemma elem_of_active_buildings (avail : DataFrame) (b : string) :
  b ∈ active_buildings avail ↔ ∃ r, r ∈ avail ∧ Building r = b.
Proof.
  unfold active_buildings.
  rewrite elem_of_list_to_set, list_elem_of_fmap. naive_solver.
Qed.

Lemma elem_of_on_machine (avail : DataFrame) (b i : string) :
  i ∈ on_machine avail b
  ↔ i ∈ items_set avail ∧ iloc0 Building avail i = Some b.
Proof.
  unfold on_machine. rewrite list_elem_of_filter, elem_of_elements.
  naive_solver.
Qed.

Lemma iloc0_unique {V} (col : Item → V) (avail : DataFrame) (r : Item) :
  NoDup (name_norm <$> avail) → r ∈ avail →
  iloc0 col avail (name_norm r) = Some (col r).
Proof.
  unfold iloc0. induction avail as [|r0 avail IH]; intros Hnd Hin.
  - by apply not_elem_of_nil in Hin.
  - rewrite fmap_cons in Hnd. apply NoDup_cons in Hnd as [Hr0 Hnd].
    rewrite filter_cons. apply elem_of_cons in Hin as [->|Hin].
    + by rewrite decide_True.
    + rewrite decide_False; [by apply IH|].
      intros Heq. apply Hr0. rewrite Heq.
      apply list_elem_of_fmap. eauto.
Qed.

(** With one row per item, the items on a machine are those whose row
    names it as their building. *)
Lemma on_machine_unique (avail : DataFrame) (b i : string) :
  NoDup (name_norm <$> avail) →
  i ∈ on_machine avail b ↔ ∃ r, r ∈ avail ∧ name_norm r = i ∧ Building r = b.
Proof.
  intros Hnd. rewrite elem_of_on_machine. unfold items_set.
  rewrite elem_of_list_to_set, list_elem_of_fmap. split.
  - intros [(r & -> & Hr) Hb]. rewrite (iloc0_unique _ _ _ Hnd Hr) in Hb.
    injection Hb as Hb. eauto.
  - intros (r & Hr & <- & <-). split; [eauto|]. by apply iloc0_unique.
Qed.

Lemma total_cap_min_nonneg (T_hours : Q) : (0 <= total_cap_min T_hours)%Q.
Proof.
  unfold total_cap_min, py_max.
  destruct (Qltb 0 (T_hours * 60)) eqn:E; [|lra].
  apply Qltb_lt in E. lra.
Qed.

Lemma total_cap_min_window (T_hours : Q) :
  ((0 <= T_hours)%Q → (total_cap_min T_hours == T_hours * 60)%Q)
  ∧ ((T_hours <= 0)%Q → (total_cap_min T_hours == 0)%Q).
Proof.
  unfold total_cap_min, py_max.
  destruct (Qltb 0 (T_hours * 60)) eqn:E.
  - apply Qltb_lt in E. split; intros; lra.
  - apply not_true_iff_false in E. rewrite Qltb_lt in E.
    split; intros; lra.
Qed.

Lemma machine_constraint_satisfies (avail : DataFrame) (b : string)
    (a : string → Q) :
  satisfies a (machine_constraint avail b)
  ↔ (load avail (on_machine avail b) a <= 1440)%Q.
Proof.
  unfold satisfies, machine_constraint; cbn [sense lhs rhs].
  pose proof (eval_lpSum_tmin avail (on_machine avail b) a) as H1.
  pose proof (eval_number a MACHINE_CAP_MIN) as H2.
  unfold MACHINE_CAP_MIN in *. split; intros H; lra.
Qed.

Lemma global_constraint_satisfies (avail : DataFrame) (T_hours : Q)
    (a : string → Q) :
  satisfies a (global_constraint avail T_hours)
  ↔ (load avail (elements (items_set avail)) a <= total_cap_min T_hours)%Q.
Proof.
  unfold satisfies, global_constraint; cbn [sense lhs rhs].
  pose proof (eval_lpSum_tmin avail (elements (items_set avail)) a) as H1.
  pose proof (eval_number a (total_cap_min T_hours)) as H2.
  split; intros H; lra.
Qed.

Lemma balance_constraint_name (avail : DataFrame) (fin : gset string)
    (k : string) (c : LpConstraint) :
  balance_constraint avail fin k = Return c → cname c = v "balance_ge" k.
Proof.
  unfold balance_constraint. destruct (_ || _); [|discriminate].
  by intros [= <-].
Qed.

Lemma sumQ_idle (coef : string → Q) (items : list string) :
  (sumQ ((λ i, coef i * 0)%Q <$> items) == 0)%Q.
Proof.
  induction items as [|i items IH]; cbn; [reflexivity|].
  fold (sumQ ((λ i0, coef i0 * 0)%Q <$> items)). rewrite IH. ring.
Qed.

(** Producing nothing satisfies every constraint of a built model. *)
Lemma idle_assignment_feasible (avail : DataFrame) (fin : gset string)
    (T_hours : Q) (integer_solution : bool) (m : LpProblem)
    (c : LpConstraint) :
  build_model avail fin T_hours integer_solution = Return m →
  c ∈ constraints m → satisfies (λ _, 0%Q) c.
Proof.
  intros Hm Hc.
  apply build_model_Return in Hm as (balance & Hb & Hcs).
  rewrite Hcs in Hc. apply elem_of_app in Hc as [Hc|Hc];
    [|apply elem_of_app in Hc as [Hc|Hc]].
  - apply list_elem_of_lookup in Hc as [n Hn].
    destruct (Forall2_lookup_r _ _ _ _ _ Hb Hn) as (k & _ & Hk).
    unfold balance_constraint in Hk.
    destruct (_ || _); [|discriminate]. injection Hk as <-.
    unfold satisfies; cbn [sense lhs rhs].
    rewrite eval_scaled, eval_minus_const, eval_consume.
    unfold demand. rewrite sumQ_idle.
    assert (0 <= initial_stock avail k)%Q
      by (rewrite initial_stock_crop; destruct (crop_source _ _); lra).
    lra.
  - apply list_elem_of_fmap in Hc as (b & -> & _).
    apply machine_constraint_satisfies. unfold load.
    rewrite sumQ_idle. lra.
  - apply list_elem_of_singleton in Hc as ->.
    apply global_constraint_satisfies. unfold load.
    rewrite sumQ_idle. apply total_cap_min_nonneg.
Qed.

(** ** Extraction *)

Lemma extract_step_keep (df_cleaned avail : DataFrame) (fin : gset string)
    (value : string → option Q) (integer_solution : bool)
    (rows : list PlanRow) (total_xp total_time : Q) (i : string) :
  extract_step df_cleaned avail fin value integer_solution
    (rows, total_xp, total_time) i
  = match keep value integer_solution i with
    | Some p =>
        (rows ++ [plan_row df_cleaned avail fin p.1 p.2],
         (total_xp + xp_of avail p.1 * p.2)%Q,
         (total_time + tmin_of avail p.1 * p.2)%Q)
    | None => (rows, total_xp, total_time)
    end.
Proof.
  unfold extract_step, keep. destruct (value i) as [val|]; [|done].
  by destruct (Qltb tolerance (quantity integer_solution val)).
Qed.

Lemma extract_fold (df_cleaned avail : DataFrame) (fin : gset string)
    (value : string → option Q) (integer_solution : bool)
    (items : list string) (rows0 : list PlanRow) (xp0 time0 : Q) :
  ∃ total_xp total_time,
    fold_left (extract_step df_cleaned avail fin value integer_solution)
      items (rows0, xp0, time0)
    = (rows0 ++ ((λ p, plan_row df_cleaned avail fin p.1 p.2)
                   <$> omap (keep value integer_solution) items),
       total_xp, total_time)
    ∧ (total_xp
       == xp0 + sumQ ((λ p, xp_of avail p.1 * p.2)
                        <$> omap (keep value integer_solution) items))%Q
    ∧ (total_time
       == time0 + sumQ ((λ p, tmin_of avail p.1 * p.2)
                          <$> omap (keep value integer_solution) items))%Q.
Proof.
  revert rows0 xp0 time0.
  induction items as [|i items IH]; intros rows0 xp0 time0.
  - exists xp0, time0. cbn. rewrite app_nil_r.
    split; [done|]. split; unfold sumQ; cbn; ring.
  - cbn [fold_left omap list_omap]. rewrite extract_step_keep.
    destruct (keep value integer_solution i) as [p|]; [|apply IH].
    destruct (IH (rows0 ++ [plan_row df_cleaned avail fin p.1 p.2])
                 (xp0 + xp_of avail p.1 * p.2)%Q
                 (time0 + tmin_of avail p.1 * p.2)%Q)
      as (total_xp & total_time & -> & Hxp & Htime).
    exists total_xp, total_time.
    split; [by rewrite <- app_assoc|].
    rewrite Hxp, Htime. cbn. unfold sumQ. split; ring.
Qed.

Lemma extract_produced (df_cleaned avail : DataFrame) (fin : gset string)
    (value : string → option Q) (integer_solution : bool) :
  ∃ total_xp total_time,
    extract df_cleaned avail fin value integer_solution
    = (unfiltered_rows df_cleaned avail fin value integer_solution,
       total_xp, total_time)
    ∧ (total_xp
       == sumQ ((λ p, xp_of avail p.1 * p.2)
                  <$> produced avail value integer_solution))%Q
    ∧ (total_time
       == sumQ ((λ p, tmin_of avail p.1 * p.2)
                  <$> produced avail value integer_solution))%Q.
Proof.
  unfold extract, unfiltered_rows, produced.
  destruct (extract_fold df_cleaned avail fin value integer_solution
              (elements (items_set avail)) [] 0%Q 0%Q)
    as (total_xp & total_time & -> & Hxp & Htime).
  exists total_xp, total_time. split; [done|].
  rewrite Hxp, Htime. split; ring.
Qed.

(** ** The order of the plan *)

Lemma by_xp_then_time (xa xb ta tb : Q) :
  (if Qltb xb xa then true
   else if Qltb xa xb then false else Qle_bool ta tb) = true
  ↔ (xb < xa)%Q ∨ ((xa == xb)%Q ∧ (ta <= tb)%Q).
Proof.
  destruct (Qltb xb xa) eqn:E1.
  { apply Qltb_lt in E1. split; auto. }
  apply not_true_iff_false in E1. rewrite Qltb_lt in E1.
  destruct (Qltb xa xb) eqn:E2.
  { apply Qltb_lt in E2. split; [done|]. intros [?|[? ?]]; lra. }
  apply not_true_iff_false in E2. rewrite Qltb_lt in E2.
  rewrite Qle_bool_iff. split.
  - intros H. right. split; [lra|done].
  - intros [?|[? ?]]; [lra|done].
Qed.

Lemma plan_le_order (a b : PlanRow) : plan_le a b ↔ plan_order a b.
Proof.
  unfold plan_le, plan_leb, plan_order.
  destruct (is_final a), (is_final b); rewrite ?by_xp_then_time;
    naive_solver.
Qed.

#[local] Instance plan_le_total : Total plan_le.
Proof.
  intros a b. rewrite !plan_le_order. unfold plan_order.
  destruct (is_final a), (is_final b); try (left; left; done);
    try (right; left; done);
    (destruct (Qlt_le_dec (xp_each b) (xp_each a));
     [left; right; split; [done|]; left; done|]);
    (destruct (Qlt_le_dec (xp_each a) (xp_each b));
     [right; right; split; [done|]; left; done|]);
    (destruct (Qlt_le_dec (time_min_each b) (time_min_each a));
     [right|left]; right; split; try done; right; split; lra).
Qed.

#[local] Instance plan_le_trans : Transitive plan_le.
Proof.
  intros a b c. rewrite !plan_le_order. unfold plan_order.
  destruct (is_final a), (is_final b), (is_final c);
    intros [[? ?]|[? H1]] [[? ?]|[? H2]]; try done;
    try (left; done);
    (right; split; [done|]);
    destruct H1 as [?|[? ?]], H2 as [?|[? ?]];
    first [left; lra | right; split; lra].
Qed.

Lemma sort_values_sorted (rows : list PlanRow) :
  StronglySorted plan_order (sort_values rows).
Proof.
  unfold sort_values.
  pose proof (StronglySorted_merge_sort plan_le rows) as H.
  induction H as [|r l _ IH Hall]; constructor; [done|].
  eapply Forall_impl; [exact Hall|]. intros r'. apply plan_le_order.
Qed.

(** ** Quantities in integer mode *)

Lemma quantity_integer_kept (val : Q) :
  Qltb tolerance (quantity true val) = true → (1 <= py_round val)%Z.
Proof.
  unfold quantity. rewrite Qltb_lt. intros H.
  assert (Htol : (0 < tolerance)%Q) by reflexivity.
  assert (H0 : (inject_Z 0 < inject_Z (py_round val))%Q)
    by (change (inject_Z 0) with 0%Q; lra).
  rewrite <- Zlt_Qlt in H0. lia.
Qed.

Lemma elem_of_produced (avail : DataFrame) (value : string → option Q)
    (integer_solution : bool) (i : string) (q : Q) :
  (i, q) ∈ produced avail value integer_solution
  ↔ i ∈ items_set avail
    ∧ ∃ val, value i = Some val
             ∧ q = quantity integer_solution val
             ∧ Qltb tolerance q = true.
Proof.
  unfold produced. rewrite list_elem_of_omap. unfold keep. split.
  - intros (j & Hj & H). apply elem_of_elements in Hj.
    destruct (value j) as [val|] eqn:Ev; [|done].
    destruct (Qltb tolerance (quantity integer_solution val)) eqn:Et; [|done].
    injection H as <- <-. eauto.
  - intros (Hi & val & Hv & -> & Ht). exists i.
    split; [by apply elem_of_elements|]. by rewrite Hv, Ht.
Qed.

(** ** The closure check *)

Lemma closure_loop_returns (needs : gmap string (list (string * Q)))
    (items : gset string)
    (call : string → gmap string bool → outcome (bool * gmap string bool))
    (ings : list (string * Q)) (cache : gmap string bool) :
  (∀ ing cache', ing ∈ keys ings → ing ∈ items →
                 ∃ b cache'', call ing cache' = Return (b, cache'')) →
  ∃ b cache', closure_loop items call ings cache = Return (b, cache').
Proof.
  revert cache. induction ings as [|[ing q] ings IH]; intros cache Hcall.
  - cbn. eauto.
  - cbn [closure_loop]. destruct (decide (ing ∈ items)) as [Hin|]; [|eauto].
    destruct (Hcall ing cache) as (b & cache' & ->); [set_solver|done|].
    cbn. destruct b; [|eauto].
    apply IH. intros ing' c Hing'. apply Hcall. set_solver.
Qed.

Lemma closure_ok_returns (needs : gmap string (list (string * Q)))
    (items : gset string) (rank : string → nat) :
  ranked needs items rank →
  ∀ depth u cache, rank u < depth →
    ∃ b cache', closure_ok needs items depth u cache = Return (b, cache').
Proof.
  intros Hranked.
  induction depth as [|d IH]; intros u cache Hu; [lia|].
  cbn [closure_ok]. destruct (cache !! u) as [b|]; [eauto|].
  destruct (closure_loop_returns needs items (closure_ok needs items d)
              (default [] (needs !! u)) cache) as (b & cache' & ->).
  - intros ing c Hing Hin. apply IH.
    specialize (Hranked u ing Hing Hin). lia.
  - cbn. eauto.
Qed.

Lemma closure_filter_returns (needs : gmap string (list (string * Q)))
    (items : gset string) (rank : string → nat) (depth : nat) :
  ranked needs items rank →
  ∀ todo cache, (∀ i, i ∈ todo → rank i < depth) →
    ∃ fs, closure_filter needs items depth todo cache = Return fs.
Proof.
  intros Hranked.
  induction todo as [|i todo IH]; intros cache Htodo; cbn; [eauto|].
  destruct (closure_ok_returns needs items rank Hranked depth i cache)
    as (b & cache' & ->); [apply Htodo; set_solver|].
  cbn. destruct (IH cache') as (fs & ->); [set_solver|]. cbn. eauto.
Qed.

(** A walk along first ingredients that never leaves a set of unlocked
    items the cache does not hold: the call on any item of the set runs
    into the limit of nested calls, whatever that limit is. *)
Lemma closure_ok_first_ingredient_cycle
    (needs : gmap string (list (string * Q))) (items : gset string)
    (cache : gmap string bool) (cycle : string → Prop)
    (depth : nat) (u : string) :
  (∀ w, cycle w →
        w ∈ items ∧ cache !! w = None
        ∧ ∃ w' q rest, needs !! w = Some ((w', q) :: rest) ∧ cycle w') →
  cycle u →
  closure_ok needs items depth u cache = Raise RecursionError.
Proof.
  intros Hcycle. revert u.
  induction depth as [|d IH]; intros u Hu;
    destruct (Hcycle u Hu) as (Hin & Hcache & w' & q & rest & Hneeds & Hw');
    cbn [closure_ok]; rewrite Hcache; [done|].
  rewrite Hneeds. cbn [default from_option id closure_loop].
  destruct (Hcycle w' Hw') as (Hin' & _).
  rewrite decide_True by done. by rewrite (IH w' Hw').
Qed.

(** C2 (as the code has it). [closure_ok] keeps a cache of finished
    calls and no set of calls in progress.  When the ingredient relation
    among unlocked items goes down a rank, a call returns a boolean as
    soon as more nested calls are allowed than the rank of the item
    asked about, and the comprehension that filters the finals returns a
    set.  When the items of a set are unlocked, absent from the cache,
    and each lists an item of the set as its first ingredient, the call
    on any of them ends in [RecursionError] however many nested calls
    are allowed: the revisit is not noticed and no cycle is reported. *)
Theorem closure_ok_acyclic_returns_cyclic_overflows
    (needs : gmap string (list (string * Q))) (items : gset string) :
  (∀ (rank : string → nat) (depth : nat),
     ranked needs items rank →
     (∀ u cache, rank u < depth →
        ∃ b cache', closure_ok needs items depth u cache = Return (b, cache'))
     ∧ (∀ todo cache, (∀ i, i ∈ todo → rank i < depth) →
          ∃ fs, closure_filter needs items depth todo cache = Return fs))
  ∧ (∀ (cycle : string → Prop) (cache : gmap string bool),
       (∀ w, cycle w →
             w ∈ items ∧ cache !! w = None
             ∧ ∃ w' q rest,
                 needs !! w = Some ((w', q) :: rest) ∧ cycle w') →
       ∀ u depth, cycle u →
         closure_ok needs items depth u cache = Raise RecursionError).
Proof.
  split.
  - intros rank depth Hranked. split.
    + by apply (closure_ok_returns needs items rank).
    + by apply (closure_filter_returns needs items rank).
  - intros cycle cache Hcycle u depth Hu.
    by apply (closure_ok_first_ingredient_cycle needs items cache cycle).
Qed.

(** What the memoised check answers, when it answers, is the closure
    property, and the cache it leaves behind tells the truth. *)
Lemma closure_loop_sound (needs : gmap string (list (string * Q)))
    (items : gset string)
    (call : string → gmap string bool → outcome (bool * gmap string bool))
    (ings : list (string * Q)) (cache cache' : gmap string bool) (b : bool) :
  (∀ ing c c' r, cache_sound needs items c → call ing c = Return (r, c') →
     (r = true ↔ closure_holds needs items ing) ∧ cache_sound needs items c') →
  cache_sound needs items cache →
  closure_loop items call ings cache = Return (b, cache') →
  (b = true ↔ ∀ ing, ing ∈ keys ings →
                     ing ∈ items ∧ closure_holds needs items ing)
  ∧ cache_sound needs items cache'.
Proof.
  intros Hcall. revert cache.
  induction ings as [|[ing q] ings IH]; intros cache Hsound; cbn [closure_loop].
  - intros [= <- <-]. split; [|done]. split; [|done].
    intros _ ing Hing. by apply not_elem_of_nil in Hing.
  - destruct (decide (ing ∈ items)) as [Hin|Hout].
    + destruct (call ing cache) as [[r c]|e] eqn:Ecall; [|discriminate].
      destruct (Hcall _ _ _ _ Hsound Ecall) as [Hr Hc]. cbn.
      destruct r.
      * intros H. destruct (IH _ Hc H) as [Hb Hc']. split; [|done].
        rewrite Hb. split.
        -- intros Hrest ing' Hing'. apply elem_of_cons in Hing' as [->|Hing'].
           ++ split; [done|]. by apply Hr.
           ++ by apply Hrest.
        -- intros Hall ing' Hing'. apply Hall. by apply elem_of_cons; right.
      * intros [= <- <-]. split; [|done]. split; [done|].
        intros Hall. destruct (Hall ing) as [_ Hcl]; [by apply elem_of_cons; left|].
        apply Hr in Hcl. discriminate.
    + intros [= <- <-]. split; [|done]. split; [done|].
      intros Hall. destruct (Hall ing) as [Hin _]; [by apply elem_of_cons; left|].
      done.
Qed.

Lemma closure_ok_sound (needs : gmap string (list (string * Q)))
    (items : gset string) (depth : nat) (u : string)
    (cache cache' : gmap string bool) (b : bool) :
  cache_sound needs items cache →
  closure_ok needs items depth u cache = Return (b, cache') →
  (b = true ↔ closure_holds needs items u) ∧ cache_sound needs items cache'.
Proof.
  revert u cache cache' b.
  induction depth as [|d IH]; intros u cache cache' b Hsound; cbn [closure_ok].
  - destruct (cache !! u) as [r|] eqn:Eu; [|discriminate].
    intros [= <- <-]. split; [by apply Hsound|done].
  - destruct (cache !! u) as [r|] eqn:Eu.
    { intros [= <- <-]. split; [by apply Hsound|done]. }
    destruct (closure_loop items (closure_ok needs items d)
                (default [] (needs !! u)) cache) as [[r c]|e] eqn:Eloop;
      [|discriminate].
    cbn. intros [= <- <-].
    destruct (closure_loop_sound needs items _ _ _ _ _
                (λ ing c0 c' r0, IH ing c0 c' r0) Hsound Eloop) as [Hr Hc].
    assert (Hu : r = true ↔ closure_holds needs items u).
    { rewrite Hr. split; [by constructor|]. by destruct 1. }
    split; [done|]. intros u' b'.
    destruct (decide (u = u')) as [<-|Hne].
    + rewrite lookup_insert_eq. by intros [= <-].
    + rewrite lookup_insert_ne by done. apply Hc.
Qed.

Lemma closure_filter_sound (needs : gmap string (list (string * Q)))
    (items : gset string) (depth : nat) (todo : list string)
    (cache : gmap string bool) (fs : gset string) :
  cache_sound needs items cache →
  closure_filter needs items depth todo cache = Return fs →
  ∀ i, i ∈ fs ↔ i ∈ todo ∧ closure_holds needs items i.
Proof.
  revert cache fs.
  induction todo as [|j todo IH]; intros cache fs Hsound; cbn [closure_filter].
  - intros [= <-] i. set_solver.
  - destruct (closure_ok needs items depth j cache) as [[r c]|e] eqn:Eok;
      [|discriminate].
    destruct (closure_ok_sound _ _ _ _ _ _ _ Hsound Eok) as [Hr Hc]. cbn.
    destruct (closure_filter needs items depth todo c) as [fs'|e] eqn:Efs;
      [|discriminate].
    cbn. intros [= <-] i. pose proof (IH _ _ Hc Efs i) as Hi.
    destruct r.
    + rewrite elem_of_union, elem_of_singleton, elem_of_cons, Hi.
      split; [|naive_solver].
      intros [->|[? ?]]; [|by auto]. split; [by left|]. by apply Hr.
    + rewrite elem_of_cons, Hi. split; [naive_solver|].
      intros [[->|?] Hcl]; [|done]. apply Hr in Hcl. discriminate.
Qed.

(** An unlocked item that lists itself first among its ingredients: the
    call for it calls itself before anything is stored in the cache, at
    every depth. *)
Lemma closure_ok_self_dependency
    (needs : gmap string (list (string * Q))) (items : gset string)
    (u : string) (q : Q) (rest : list (string * Q))
    (cache : gmap string bool) (depth : nat) :
  needs !! u = Some ((u, q) :: rest) →
  u ∈ items →
  cache !! u = None →
  closure_ok needs items depth u cache = Raise RecursionError.
Proof.
  intros Hneeds Hin Hcache. induction depth as [|d IH]; cbn [closure_ok].
  - by rewrite Hcache.
  - rewrite Hcache, Hneeds. cbn [default from_option id closure_loop].
    rewrite decide_True by done. by rewrite IH.
Qed.

(** ** More on the closure check *)

Lemma closure_loop_grows (items : gset string)
    (call : string → gmap string bool → outcome (bool * gmap string bool))
    (ings : list (string * Q)) (cache cache' : gmap string bool) (b : bool) :
  (∀ ing c c' r, call ing c = Return (r, c') → c ⊆ c') →
  closure_loop items call ings cache = Return (b, cache') →
  cache ⊆ cache'.
Proof.
  intros Hcall. revert cache.
  induction ings as [|[ing q] ings IH]; intros cache; cbn [closure_loop].
  - by intros [= <- <-].
  - destruct (decide (ing ∈ items)) as [Hin|Hout]; [|by intros [= <- <-]].
    destruct (call ing cache) as [[r c]|e] eqn:Ecall; [|discriminate].
    cbn. pose proof (Hcall _ _ _ _ Ecall) as Hc. destruct r.
    + intros H. etrans; [exact Hc|]. by eapply IH.
    + by intros [= <- <-].
Qed.

Lemma closure_ok_grows (needs : gmap string (list (string * Q)))
    (items : gset string) (depth : nat) (u : string)
    (cache cache' : gmap string bool) (b : bool) :
  closure_ok needs items depth u cache = Return (b, cache') →
  cache ⊆ cache' ∧ cache' !! u = Some b.
Proof.
  revert u cache cache' b.
  induction depth as [|d IH]; intros u cache cache' b; cbn [closure_ok].
  - destruct (cache !! u) as [r|] eqn:Eu; [|discriminate].
    by intros [= <- <-].
  - destruct (cache !! u) as [r|] eqn:Eu; [by intros [= <- <-]|].
    destruct (closure_loop items (closure_ok needs items d)
                (default [] (needs !! u)) cache) as [[r c]|e] eqn:Eloop;
      [|discriminate].
    cbn. intros [= <- <-]. split; [|by rewrite lookup_insert_eq].
    apply insert_subseteq_r; [done|].
    eapply closure_loop_grows; [|exact Eloop].
    intros ing c0 c' r0 H. by destruct (IH _ _ _ _ H).
Qed.

(** The cache of the closure check only grows, and only by true
    answers: a call that returns leaves every earlier entry in place,
    adds the answer for its own argument, and that answer and every
    entry added on the way say whether the item is closed. *)
Theorem closure_ok_keeps_the_cache_sound
    (needs : gmap string (list (string * Q))) (items : gset string)
    (depth : nat) (u : string) (cache cache' : gmap string bool) (b : bool) :
  cache_sound needs items cache →
  closure_ok needs items depth u cache = Return (b, cache') →
  (b = true ↔ closure_holds needs items u)
  ∧ cache_sound needs items cache'
  ∧ cache ⊆ cache'
  ∧ cache' !! u = Some b.
Proof.
  intros Hsound H.
  destruct (closure_ok_sound _ _ _ _ _ _ _ Hsound H) as [Hb Hc].
  destruct (closure_ok_grows _ _ _ _ _ _ _ H) as [Hsub Hu].
  auto.
Qed.

Lemma closure_loop_mono (items : gset string)
    (call1 call2 : string → gmap string bool
                   → outcome (bool * gmap string bool))
    (ings : list (string * Q)) (cache : gmap string bool)
    (r : bool * gmap string bool) :
  (∀ ing c r', call1 ing c = Return r' → call2 ing c = Return r') →
  closure_loop items call1 ings cache = Return r →
  closure_loop items call2 ings cache = Return r.
Proof.
  intros Hcall. revert cache.
  induction ings as [|[ing q] ings IH]; intros cache; cbn [closure_loop];
    [done|].
  destruct (decide (ing ∈ items)) as [Hin|Hout]; [|done].
  destruct (call1 ing cache) as [[ok c]|e] eqn:Ecall; [|discriminate].
  rewrite (Hcall _ _ _ Ecall). cbn. destruct ok; [apply IH|done].
Qed.

(** More room on the stack never changes an answer: what the check
    returns at one depth, with its cache, it returns at every greater
    depth. *)
Theorem closure_ok_answer_is_stable_in_depth
    (needs : gmap string (list (string * Q))) (items : gset string)
    (depth depth' : nat) (u : string) (cache : gmap string bool)
    (r : bool * gmap string bool) :
  closure_ok needs items depth u cache = Return r →
  (depth ≤ depth')%nat →
  closure_ok needs items depth' u cache = Return r.
Proof.
  revert depth' u cache r.
  induction depth as [|d IH]; intros depth' u cache r.
  - cbn [closure_ok]. destruct (cache !! u) as [b|] eqn:Eu; [|discriminate].
    intros H _. destruct depth'; cbn [closure_ok]; by rewrite Eu.
  - intros H Hle. destruct depth' as [|d']; [lia|].
    cbn [closure_ok] in H |- *. destruct (cache !! u) as [b|]; [done|].
    destruct (closure_loop items (closure_ok needs items d)
                (default [] (needs !! u)) cache) as [r0|e] eqn:Eloop;
      [|discriminate].
    rewrite (closure_loop_mono items (closure_ok needs items d)
               (closure_ok needs items d') _ _ r0); [done| |done].
    intros ing c r' Hr'. apply (IH d'); [done|lia].
Qed.

(** ** More on the built model *)

(** The ingredient items are the unlocked items that the ingredient
    dictionary of some unlocked item lists, and a built model has one
    balance constraint for each of them and no other: its constraints
    are these, then one per building, then the global one. *)
Theorem ingredient_items_are_the_unlocked_ingredients (avail : DataFrame)
    (fin : gset string) (T_hours : Q) (integer_solution : bool)
    (m : LpProblem) :
  build_model avail fin T_hours integer_solution = Return m →
  (∀ k, k ∈ ingredient_items avail
        ↔ k ∈ items_set avail
          ∧ ∃ i nd, needs_map avail !! i = Some nd ∧ k ∈ keys nd)
  ∧ ∃ balance,
      constraints m
      = balance
        ++ (machine_constraint avail <$> elements (active_buildings avail))
        ++ [global_constraint avail T_hours]
      ∧ length balance = size (ingredient_items avail)
      ∧ Forall2 (λ k c, balance_constraint avail fin k = Return c)
          (elements (ingredient_items avail)) balance.
Proof.
  intros Hm. split; [intros k; apply elem_of_ingredient_items|].
  apply build_model_Return in Hm as (balance & Hb & Hcs).
  exists balance. split; [done|]. split; [|done].
  by rewrite <- (Forall2_length _ _ _ Hb).
Qed.

(** Producing nothing is feasible for every model the function builds:
    the all-zero assignment satisfies each constraint, meets the lower
    bound of each variable and has objective value zero. *)
Theorem producing_nothing_is_feasible (avail : DataFrame) (fin : gset string)
    (T_hours : Q) (integer_solution : bool) (m : LpProblem) :
  build_model avail fin T_hours integer_solution = Return m →
  (∀ c, c ∈ constraints m → satisfies (λ _, 0%Q) c)
  ∧ (∀ i var, variables m !! i = Some var → (lowBound var <= 0)%Q)
  ∧ (eval (λ _, 0%Q) (objective m) == 0)%Q.
Proof.
  intros Hm. split; [|split].
  - intros c Hc. by eapply idle_assignment_feasible.
  - unfold build_model in Hm.
    apply bind_Return in Hm as (balance & _ & [= <-]). cbn [variables].
    intros i var Hvar. unfold x in Hvar.
    apply lookup_set_to_map in Hvar as (j & _ & [= _ <-]); [|naive_solver].
    cbn. lra.
  - unfold build_model in Hm.
    apply bind_Return in Hm as (balance & _ & [= <-]). cbn [objective].
    rewrite eval_lpSum. apply sumQ_idle.
Qed.

(** The model has one variable per unlocked item and no other, each
    bounded below by zero, named [x] followed by the sanitised key, and
    integer exactly in integer mode; its objective is the total
    experience [Σ xp[i]·x[i]] over the unlocked items. *)
Theorem model_variables_and_objective (avail : DataFrame) (fin : gset string)
    (T_hours : Q) (integer_solution : bool) (m : LpProblem) :
  build_model avail fin T_hours integer_solution = Return m →
  (∀ i, i ∈ items_set avail ↔ is_Some (variables m !! i))
  ∧ (∀ i var, variables m !! i = Some var →
       var_name var = v "x" i ∧ lowBound var = 0%Q
       ∧ (cat var = Integer ↔ integer_solution = true))
  ∧ (∀ a : string → Q,
       (eval a (objective m)
        == sumQ ((λ i, xp_of avail i * a i)%Q <$> elements (items_set avail)))%Q).
Proof.
  intros Hm. unfold build_model in Hm.
  apply bind_Return in Hm as (balance & _ & [= <-]).
  cbn [variables objective]. split; [|split].
  - intros i. apply x_is_Some.
  - intros i var Hvar. unfold x in Hvar.
    apply lookup_set_to_map in Hvar as (j & _ & [= <- <-]); [|naive_solver].
    cbn. split; [done|]. split; [done|]. by destruct integer_solution.
  - intros a. apply eval_lpSum.
Qed.

(** ** Quantities and sums of the extraction *)

Lemma py_round_inject_Z (z : Z) : py_round (inject_Z z) = z.
Proof.
  unfold py_round. rewrite Qfloor_Z.
  assert (H : Qltb (inject_Z z - inject_Z z) (1 # 2) = true)
    by (apply Qltb_lt; ring_simplify; reflexivity).
  by rewrite H.
Qed.

(** The rounded value is a nearest integer: it is within one half of
    the value it rounds. *)
Lemma py_round_nearest (x : Q) :
  (-(1 # 2) <= inject_Z (py_round x) - x <= 1 # 2)%Q.
Proof.
  unfold py_round.
  pose proof (Qfloor_le x) as Hlo. pose proof (Qlt_floor x) as Hhi.
  rewrite inject_Z_plus in Hhi. change (inject_Z 1) with 1%Q in Hhi.
  destruct (Qltb (x - inject_Z (Qfloor x)) (1 # 2)) eqn:E1.
  { apply Qltb_lt in E1. lra. }
  apply not_true_iff_false in E1. rewrite Qltb_lt in E1.
  destruct (Qltb (1 # 2) (x - inject_Z (Qfloor x))) eqn:E2.
  { apply Qltb_lt in E2. rewrite inject_Z_plus.
    change (inject_Z 1) with 1%Q. lra. }
  apply not_true_iff_false in E2. rewrite Qltb_lt in E2.
  destruct (Z.even (Qfloor x)); [lra|].
  rewrite inject_Z_plus. change (inject_Z 1) with 1%Q. lra.
Qed.

Lemma length_omap_le {A B} (f : A → option B) (l : list A) :
  (length (omap f l) ≤ length l)%nat.
Proof.
  induction l as [|a l IH]; cbn; [lia|]. destruct (f a); cbn; lia.
Qed.

Lemma tolerance_below_one : (0 < tolerance)%Q ∧ (tolerance < 1)%Q.
Proof. split; reflexivity. Qed.

Lemma kept_sum_le (value : string → option Q) (integer_solution : bool)
    (a f : string → Q) (items : list string) :
  (∀ i, i ∈ items →
        value i = Some (a i) ∧ (0 <= a i)%Q
        ∧ (quantity integer_solution (a i) == a i)%Q) →
  (∀ i, i ∈ items → (0 <= f i)%Q) →
  (sumQ ((λ p, f p.1 * p.2)%Q <$> omap (keep value integer_solution) items)
   <= sumQ ((λ i, f i * a i)%Q <$> items))%Q.
Proof.
  induction items as [|i items IH]; intros Hval Hf; [cbn; lra|].
  cbn [omap list_omap fmap list_fmap].
  destruct (Hval i) as (Hv & Ha & Hq); [by left|].
  assert (Hfi : (0 <= f i)%Q) by (apply Hf; by left).
  assert (IH' : (sumQ ((λ p, f p.1 * p.2)%Q
                         <$> omap (keep value integer_solution) items)
                 <= sumQ ((λ i, f i * a i)%Q <$> items))%Q).
  { apply IH; intros j Hj; [apply Hval|apply Hf]; by right. }
  unfold keep at 1. rewrite Hv.
  destruct (Qltb tolerance (quantity integer_solution (a i))); cbn.
  - fold (sumQ ((λ p, f p.1 * p.2)%Q
                  <$> omap (keep value integer_solution) items)).
    fold (sumQ ((λ i, f i * a i)%Q <$> items)).
    rewrite Hq. lra.
  - fold (sumQ ((λ i, f i * a i)%Q <$> items)).
    assert (0 <= f i * a i)%Q by (apply Qmult_le_0_compat; done).
    lra.
Qed.

Lemma kept_sum_eq (value : string → option Q) (a f : string → Q)
    (items : list string) :
  (∀ i, i ∈ items →
        value i = Some (a i) ∧ ∃ z, a i = inject_Z z ∧ (0 <= z)%Z) →
  (sumQ ((λ p, f p.1 * p.2)%Q <$> omap (keep value true) items)
   == sumQ ((λ i, f i * a i)%Q <$> items))%Q.
Proof.
  induction items as [|i items IH]; intros Hval; [reflexivity|].
  cbn [omap list_omap fmap list_fmap].
  destruct (Hval i) as (Hv & z & Hz & Hpos); [by left|].
  assert (IH' : (sumQ ((λ p, f p.1 * p.2)%Q <$> omap (keep value true) items)
                 == sumQ ((λ i, f i * a i)%Q <$> items))%Q).
  { apply IH; intros j Hj; apply Hval; by right. }
  unfold keep at 1. rewrite Hv. unfold quantity. rewrite Hz, py_round_inject_Z.
  destruct (Qltb tolerance (inject_Z z)) eqn:E; cbn.
  - fold (sumQ ((λ p, f p.1 * p.2)%Q <$> omap (keep value true) items)).
    fold (sumQ ((λ i, f i * a i)%Q <$> items)).
    rewrite IH'. reflexivity.
  - fold (sumQ ((λ i, f i * a i)%Q <$> items)).
    apply not_true_iff_false in E. rewrite Qltb_lt in E.
    assert (z = 0%Z) as ->.
    { destruct (decide (z = 0%Z)) as [|Hne]; [done|]. exfalso. apply E.
      destruct tolerance_below_one as [_ Hlt].
      assert (inject_Z 1 <= inject_Z z)%Q by (rewrite <- Zle_Qle; lia).
      change (inject_Z 1) with 1%Q in *. lra. }
    rewrite IH'. change (inject_Z 0) with 0%Q. ring.
Qed.

(** ** Names of variables and constraints *)

Lemma sub_non_alnum_chars (b : bool) (s : string) :
  Forall (λ c, is_alnum c = true ∨ c = "_"%char) (chars (sub_non_alnum b s)).
Proof.
  revert b. induction s as [|c s IH]; intros b; cbn [sub_non_alnum].
  - constructor.
  - destruct (is_alnum c) eqn:Ec.
    + constructor; [by left|apply IH].
    + destruct b; [apply IH|]. constructor; [by right|apply IH].
Qed.

Lemma sub_non_alnum_again (s : string) :
  sub_non_alnum true (sub_non_alnum true s) = sub_non_alnum true s
  ∧ ∀ b, sub_non_alnum false (sub_non_alnum b s) = sub_non_alnum b s.
Proof.
  induction s as [|c s [IHt IHf]]; [by split; [|intros []]|].
  cbn [sub_non_alnum]. destruct (is_alnum c) eqn:Ec.
  - split; [|intros b]; cbn [sub_non_alnum]; rewrite Ec; by rewrite (IHf false).
  - split; [done|]. intros [|]; [apply IHf|].
    cbn [sub_non_alnum].
    replace (is_alnum "_") with false by (vm_compute; reflexivity).
    by rewrite IHt.
Qed.

Lemma sub_non_alnum_separator (b : bool) (s1 s2 : string) (c c' : ascii) :
  is_alnum c = false → is_alnum c' = false →
  sub_non_alnum b (s1 +:+ String c s2) = sub_non_alnum b (s1 +:+ String c' s2).
Proof.
  intros Hc Hc'. revert b.
  induction s1 as [|d s1 IH]; intros b.
  - change (sub_non_alnum b (String c s2) = sub_non_alnum b (String c' s2)).
    cbn [sub_non_alnum]. by rewrite Hc, Hc'.
  - change (sub_non_alnum b (String d (s1 +:+ String c s2))
            = sub_non_alnum b (String d (s1 +:+ String c' s2))).
    cbn [sub_non_alnum].
    destruct (is_alnum d); [by rewrite IH|]. destruct b; by rewrite IH.
Qed.

(** The names handed to the solver are sanitised: after the prefix come
    letters, digits and underscores only, and sanitising such a text
    again leaves it as it is. *)
Theorem names_are_sanitised (p s : string) :
  ∃ t, v p s = p +:+ t
       ∧ Forall (λ c, is_alnum c = true ∨ c = "_"%char) (chars t)
       ∧ v p t = v p s.
Proof.
  exists (sub_non_alnum false s). split; [done|].
  split; [apply sub_non_alnum_chars|].
  unfold v. by rewrite (proj2 (sub_non_alnum_again s) false).
Qed.

(** Sanitising forgets which separator a key holds: two keys that
    differ in one character that is neither a letter nor a digit get
    the same name. *)
Theorem names_confuse_separators (p s1 s2 : string) (c c' : ascii) :
  is_alnum c = false → is_alnum c' = false →
  v p (s1 +:+ String c s2) = v p (s1 +:+ String c' s2).
Proof.
  intros Hc Hc'. unfold v. by rewrite (sub_non_alnum_separator _ _ _ c c').
Qed.

(** ** Rows of one name *)

(** When several unlocked rows carry one normalised name, the figures
    of the model come from the last of them (the dictionaries are
    overwritten row by row) while the building comes from the first
    (the frame is read at position 0). *)
Theorem figures_of_the_last_row_building_of_the_first
    (avail : DataFrame) (i : string) (first_row last_row : Item) :
  head (filter (λ r, name_norm r = i) avail) = Some first_row →
  last (filter (λ r, name_norm r = i) avail) = Some last_row →
  xp_of avail i = XP last_row
  ∧ tmin_of avail i = time_min last_row
  ∧ yield_of avail i = Yield_qty last_row
  ∧ (∀ k, requirement avail i k
          = default 0%Q (dict_get (needs_norm last_row) k))
  ∧ (∀ b, i ∈ on_machine avail b ↔ b = Building first_row).
Proof.
  intros Hfirst Hlast.
  unfold xp_of, tmin_of, yield_of, requirement, xp, tmin, yield_map,
    needs_map, dict_of.
  rewrite !dict_of_fold, Hlast. cbn [default from_option id].
  split; [done|]. split; [done|]. split; [done|]. split; [done|].
  intros b. rewrite elem_of_on_machine. unfold iloc0. rewrite Hfirst. cbn.
  split; [by intros [_ [= <-]]|]. intros ->. split; [|done].
  unfold items_set. rewrite elem_of_list_to_set, list_elem_of_fmap.
  exists first_row.
  assert (Hin : first_row ∈ filter (λ r, name_norm r = i) avail).
  { destruct (filter _ avail) as [|r0 l]; [discriminate|].
    injection Hfirst as ->. by left. }
  apply list_elem_of_filter in Hin as [Hn Hin]. by split.
Qed.

(** ** A window without time *)

(** With a time window that is not positive the global constraint
    allows no production time at all: the cap of the model is zero,
    not the negative product [T_hours·60]. *)
Theorem window_without_time_allows_none (avail : DataFrame)
    (fin : gset string) (T_hours : Q) (integer_solution : bool)
    (m : LpProblem) :
  (T_hours <= 0)%Q →
  build_model avail fin T_hours integer_solution = Return m →
  last (constraints m) = Some (global_constraint avail T_hours)
  ∧ ∀ a : string → Q,
      satisfies a (global_constraint avail T_hours)
      ↔ (load avail (elements (items_set avail)) a <= 0)%Q.
Proof.
  intros Hwindow Hm.
  apply build_model_Return in Hm as (balance & _ & ->). split.
  - by rewrite app_assoc, last_snoc.
  - intros a. rewrite global_constraint_satisfies.
    destruct (total_cap_min_window T_hours) as [_ Hcap].
    specialize (Hcap Hwindow). split; intros H; lra.
Qed.

(** ** The table of the page *)

#[local] Instance desc_by_total (key : PlanRow → Q) : Total (desc_by key).
Proof.
  intros a b. unfold desc_by. rewrite !Qle_bool_iff.
  destruct (Qlt_le_dec (key a) (key b)); [right; lra|left; lra].
Qed.

#[local] Instance desc_by_trans (key : PlanRow → Q) : Transitive (desc_by key).
Proof.
  intros a b c. unfold desc_by. rewrite !Qle_bool_iff. intros. lra.
Qed.

Lemma sort_values_desc_sorted (key : PlanRow → Q) (rows : list PlanRow) :
  StronglySorted (λ a b, (key b <= key a)%Q) (sort_values_desc key rows).
Proof.
  unfold sort_values_desc.
  pose proof (StronglySorted_merge_sort (desc_by key) rows) as H.
  induction H as [|r l _ IH Hall]; constructor; [done|].
  eapply Forall_impl; [exact Hall|]. intros r'. unfold desc_by.
  by rewrite Qle_bool_iff.
Qed.

Lemma view_Permutation (plan : PlanFrame) (finals_set : gset string)
    (show_only_finals : bool) (sort_choice : string) :
  view plan finals_set show_only_finals sort_choice
  ≡ₚ (if show_only_finals
      then filter (λ r, item r ∈ finals_set) (records plan)
      else records plan).
Proof.
  unfold view.
  destruct (decide (sort_choice = "XP total (desc)"));
    [|destruct (decide (sort_choice = "Time total (desc)"))];
    unfold sort_values_desc, sort_values; apply merge_sort_Permutation.
Qed.

(** The table shows the rows of the plan, all of them or those whose
    item is among the finals of the page, in the order chosen: by total
    experience or by total time, largest first, or else in the order of
    the plan itself. *)
Theorem view_is_the_plan_in_the_chosen_order (plan : PlanFrame)
    (finals_set : gset string) (show_only_finals : bool)
    (sort_choice : string) :
  view plan finals_set show_only_finals sort_choice
  ≡ₚ (if show_only_finals
      then filter (λ r, item r ∈ finals_set) (records plan)
      else records plan)
  ∧ (sort_choice = "XP total (desc)" →
     StronglySorted (λ a b, (xp_total b <= xp_total a)%Q)
       (view plan finals_set show_only_finals sort_choice))
  ∧ (sort_choice = "Time total (desc)" →
     StronglySorted (λ a b, (time_min_total b <= time_min_total a)%Q)
       (view plan finals_set show_only_finals sort_choice))
  ∧ (sort_choice ≠ "XP total (desc)" →
     sort_choice ≠ "Time total (desc)" →
     StronglySorted plan_order
       (view plan finals_set show_only_finals sort_choice)).
Proof.
  split; [apply view_Permutation|]. unfold view. split; [|split].
  - intros ->. rewrite decide_True by done. apply sort_values_desc_sorted.
  - intros ->. rewrite decide_False by done. rewrite decide_True by done.
    apply sort_values_desc_sorted.
  - intros H1 H2. rewrite !decide_False by done. apply sort_values_sorted.
Qed.

(** * The optimizer as a whole *)

Section OptimizerFacts.

Variable norm : string → string.
Variable df : DataFrame.
Variable recursion_limit : nat.
Variable solve : LpProblem → SolverAnswer.

(** ** The finals *)

(** A name is final when it is the name of an unlocked row and no
    ingredient of an unlocked row resolves to it in [df]. *)
Lemma elem_of_finals_in_unlocked (av : DataFrame) (n : string) :
  n ∈ finals_in_unlocked df av
  ↔ n ∈ Name <$> av
    ∧ ¬ ∃ r ing, r ∈ av ∧ ing ∈ keys (needs_norm r)
                 ∧ iloc0 Name df ing = Some n.
Proof.
  unfold finals_in_unlocked.
  set (items := list_to_set (Name <$> av) : gset string).
  set (step := λ (used : gset string) (ing_norm : string),
         match iloc0 Name df ing_norm with
         | Some ing_original_name =>
             if decide (ing_original_name ∈ items)
             then {[ing_original_name]} ∪ used else used
         | None => used
         end).
  assert (Hinner : ∀ (ks : list string) (used : gset string),
    n ∈ fold_left step ks used
    ↔ n ∈ used ∨ (n ∈ items ∧ ∃ ing, ing ∈ ks ∧ iloc0 Name df ing = Some n)).
  { induction ks as [|k ks IH]; intros used; cbn [fold_left].
    - split; [auto|]. intros [?|[_ (ing & Hing & _)]]; [done|].
      by apply not_elem_of_nil in Hing.
    - rewrite IH. unfold step at 1.
      destruct (iloc0 Name df k) as [n'|] eqn:Ek.
      + destruct (decide (n' ∈ items)) as [Hin|Hout].
        * rewrite elem_of_union, elem_of_singleton. split.
          -- intros [[->|?]|[? (ing & Hing & ?)]]; [|by auto|].
             ++ right. split; [done|]. exists k. split; [by left|done].
             ++ right. split; [done|]. exists ing. split; [by right|done].
          -- intros [?|[? (ing & Hing & Hn)]]; [by auto|].
             apply elem_of_cons in Hing as [->|Hing]; [|by eauto 6].
             left. left. congruence.
        * split.
          -- intros [?|[? (ing & Hing & ?)]]; [by auto|].
             right. split; [done|]. exists ing. split; [by right|done].
          -- intros [?|[Hn (ing & Hing & Hing')]]; [by auto|].
             apply elem_of_cons in Hing as [->|Hing]; [|by eauto 6].
             congruence.
      + split.
        * intros [?|[? (ing & Hing & ?)]]; [by auto|].
          right. split; [done|]. exists ing. split; [by right|done].
        * intros [?|[Hn (ing & Hing & Hing')]]; [by auto|].
          apply elem_of_cons in Hing as [->|Hing]; [congruence|by eauto 6]. }
  assert (Houter : ∀ (rows : DataFrame) (used : gset string),
    n ∈ fold_left (λ used r, fold_left step (keys (needs_norm r)) used)
          rows used
    ↔ n ∈ used
      ∨ (n ∈ items ∧ ∃ r ing, r ∈ rows ∧ ing ∈ keys (needs_norm r)
                              ∧ iloc0 Name df ing = Some n)).
  { induction rows as [|r rows IH]; intros used; cbn [fold_left].
    - split; [auto|]. intros [?|[_ (r & ing & Hr & _)]]; [done|].
      by apply not_elem_of_nil in Hr.
    - rewrite IH, Hinner. split.
      + intros [[?|[? (ing & ? & ?)]]|[? (r' & ing & ? & ? & ?)]];
          [by auto| |].
        * right. split; [done|]. exists r, ing. split; [by left|done].
        * right. split; [done|]. exists r', ing. split; [by right|done].
      + intros [?|[? (r' & ing & Hr' & ? & ?)]]; [by auto|].
        apply elem_of_cons in Hr' as [->|Hr']; [by eauto 8|].
        right. split; [done|]. eauto. }
  assert (Hitems : n ∈ items ↔ n ∈ Name <$> av)
    by (unfold items; apply elem_of_list_to_set).
  rewrite elem_of_difference, Houter, Hitems. split.
  - intros [Hn Hnot]. split; [done|]. intros H. apply Hnot. by right.
  - intros [Hn Hnot]. split; [done|].
    intros [H|[_ H]]; [by apply not_elem_of_empty in H|by apply Hnot].
Qed.

(** The finals the function works with are the normalised final names
    whose ingredients are all unlocked and closed in turn. *)
Lemma elem_of_finals (avail : DataFrame) (fin : gset string) (i : string) :
  finals norm df recursion_limit avail = Return fin →
  i ∈ fin
  ↔ i ∈ finals_raw norm df avail
    ∧ closure_holds (needs_map avail) (items_set avail) i.
Proof.
  unfold finals. intros H.
  assert (Hempty : cache_sound (needs_map avail) (items_set avail) ∅)
    by (intros u b Hu; by rewrite lookup_empty in Hu).
  rewrite (closure_filter_sound _ _ _ _ _ _ Hempty H).
  by rewrite elem_of_elements.
Qed.

(** In a well-formed catalogue an unlocked ingredient is never a final:
    whether it gets a balance constraint or the exact-balance branch is
    decided by its stock alone. *)
Lemma ingredient_is_not_final (avail : DataFrame) (fin : gset string)
    (k : string) :
  well_formed norm df avail →
  finals norm df recursion_limit avail = Return fin →
  k ∈ ingredient_items avail →
  k ∉ fin.
Proof.
  intros (Hnd & Hsub & Hnorm) Hfin Hk Hkfin.
  apply elem_of_ingredient_items in Hk as (Hitem & i & nd & Hi & Hknd).
  apply dict_of_lookup_Some in Hi as (ri & Hri & _ & <-).
  apply elem_of_list_to_set, list_elem_of_fmap in Hitem as (rk & -> & Hrk).
  apply (elem_of_finals _ _ _ Hfin) in Hkfin as [Hraw _].
  apply elem_of_map in Hraw as (n & Hn & Hfinal).
  apply elem_of_finals_in_unlocked in Hfinal as [Hname Hunused].
  apply list_elem_of_fmap in Hname as (r' & -> & Hr').
  rewrite (Hnorm _ Hr') in Hn.
  assert (r' = rk) as ->.
  { pose proof (iloc0_unique id df r' Hnd (Hsub _ Hr')) as H1.
    pose proof (iloc0_unique id df rk Hnd (Hsub _ Hrk)) as H2.
    rewrite <- Hn in H1. rewrite H1 in H2. by injection H2. }
  apply Hunused. exists ri, (name_norm rk). split; [done|]. split; [done|].
  apply iloc0_unique; auto.
Qed.


(** ** The exact-balance branch *)

(** C1. An unlocked ingredient item that is not a final and has no
    initial stock takes the exact-balance branch, and that branch
    reads the unbound name [ield_map]: no constraint is added and the
    run ends in [NameError]. *)
Theorem exact_balance_raises_NameError
    (df_cleaned : DataFrame) (player_level : Z) (T_hours : Q)
    (integer_solution : bool) (fin : gset string) (k : string) :
  let avail := unlocked df_cleaned player_level in
  finals norm df recursion_limit avail = Return fin →
  k ∈ ingredient_items avail →
  k ∉ fin →
  (initial_stock avail k == 0)%Q →
  build_model avail fin T_hours integer_solution
    = Raise (NameError "ield_map")
  ∧ optimize_plan_notebook norm df recursion_limit solve
      df_cleaned player_level T_hours integer_solution
    = Raise (NameError "ield_map").
Proof.
  intros avail Hfin Hk Hnot Hstock.
  assert (Hb : build_model avail fin T_hours integer_solution
               = Raise (NameError "ield_map")).
  { unfold build_model.
    rewrite (mapM_Raise _ _ k (NameError "ield_map")); [done| | |].
    - by apply elem_of_elements.
    - by apply balance_constraint_exact.
    - intros ??. apply balance_constraint_raises. }
  split; [done|]. unfold optimize_plan_notebook. fold avail.
  by rewrite Hfin; cbn; rewrite Hb.
Qed.

(** ** Material balance with surplus *)

(** C5. In the model handed to the solver, every unlocked ingredient
    item [k] that is a final or has initial stock contributes the
    constraint [yield[k]·x[k] + initial_stock[k] >= Σ requirement[i][k]·x[i]]:
    the yield is that of the row of [k], the stock is 30 for a crop
    source and 0 otherwise, and the sum ranges over the unlocked items,
    each with the amount of [k] its recipe lists; production may exceed
    consumption. *)
Theorem surplus_balance_in_model
    (df_cleaned : DataFrame) (player_level : Z) (T_hours : Q)
    (integer_solution : bool) (fin : gset string) (m : LpProblem)
    (k : string) :
  let avail := unlocked df_cleaned player_level in
  finals norm df recursion_limit avail = Return fin →
  build_model avail fin T_hours integer_solution = Return m →
  k ∈ ingredient_items avail →
  k ∈ fin ∨ ¬ (initial_stock avail k == 0)%Q →
  ∃ c r, c ∈ constraints m
         ∧ cname c = v "balance_ge" k
         ∧ row_of avail k = Some r
         ∧ initial_stock avail k = (if crop_source avail k then 30 else 0)%Q
         ∧ ∀ a : string → Q,
             satisfies a c
             ↔ (demand avail k a
                <= Yield_qty r * a k + initial_stock avail k)%Q.
Proof.
  intros avail _ Hm Hk Hcase.
  destruct (balance_constraint_in_model _ _ _ _ _ _ Hm Hk) as (c & Hin & Hc).
  assert (Hitem : k ∈ items_set avail)
    by (by apply elem_of_ingredient_items in Hk as [? _]).
  destruct (row_of_is_Some avail k Hitem) as (r & Hr & _).
  exists c, r. split; [done|].
  unfold balance_constraint in Hc.
  assert (Hb : bool_decide (k ∈ fin) || Qltb 0 (initial_stock avail k) = true).
  { destruct Hcase as [H|H].
    - by rewrite bool_decide_eq_true_2.
    - rewrite initial_stock_crop in H |- *.
      destruct (crop_source avail k); [apply orb_true_r|].
      exfalso. apply H. reflexivity. }
  rewrite Hb in Hc. injection Hc as <-. split; [done|]. split; [done|].
  split; [apply initial_stock_crop|].
  intros a. unfold satisfies; cbn [sense lhs rhs].
  rewrite (yield_of_row avail k r Hr).
  pose proof (eval_scaled a (Yield_qty r) k) as H1.
  pose proof (eval_minus_const a (consume avail k) (initial_stock avail k)) as H2.
  pose proof (eval_consume avail k a) as H3.
  split; intros H; lra.
Qed.

(** ** Time capacity *)

(** C6. For a time window that is not negative, the model holds, for
    every building named by an unlocked row, the constraint
    [Σ time[i]·x[i] <= 1440] over the items on that building, whatever
    the window; and it ends with one constraint named [global_time_cap],
    which bounds the sum over all unlocked items by [T_hours·60]. *)
Theorem time_capacity_in_model
    (df_cleaned : DataFrame) (player_level : Z) (T_hours : Q)
    (integer_solution : bool) (fin : gset string) (m : LpProblem) :
  let avail := unlocked df_cleaned player_level in
  (0 <= T_hours)%Q →
  finals norm df recursion_limit avail = Return fin →
  build_model avail fin T_hours integer_solution = Return m →
  (∀ r, r ∈ avail →
     ∃ c, c ∈ constraints m
          ∧ cname c = "machine_cap_" +:+ Building r
          ∧ ∀ a : string → Q,
              satisfies a c
              ↔ (load avail (on_machine avail (Building r)) a <= 1440)%Q)
  ∧ (∃ others,
       constraints m = others ++ [global_constraint avail T_hours]
       ∧ ∀ c, c ∈ others → cname c ≠ "global_time_cap")
  ∧ (∀ a : string → Q,
       satisfies a (global_constraint avail T_hours)
       ↔ (load avail (elements (items_set avail)) a <= T_hours * 60)%Q).
Proof.
  intros avail Hwindow _ Hm.
  apply build_model_Return in Hm as (balance & Hb & Hcs).
  split; [|split].
  - intros r Hr. exists (machine_constraint avail (Building r)).
    split; [|split; [done|]].
    + rewrite Hcs. apply elem_of_app. right. apply elem_of_app. left.
      apply list_elem_of_fmap. exists (Building r). split; [done|].
      apply elem_of_elements, elem_of_active_buildings. eauto.
    + intros a. apply machine_constraint_satisfies.
  - exists (balance
            ++ (machine_constraint avail <$> elements (active_buildings avail))).
    split; [by rewrite Hcs, app_assoc|].
    intros c Hc. apply elem_of_app in Hc as [Hc|Hc].
    + apply list_elem_of_lookup in Hc as [n Hn].
      destruct (Forall2_lookup_r _ _ _ _ _ Hb Hn) as (k & _ & Hk).
      apply balance_constraint_name in Hk. rewrite Hk. discriminate.
    + apply list_elem_of_fmap in Hc as (b & -> & _). discriminate.
  - intros a. rewrite global_constraint_satisfies.
    destruct (total_cap_min_window T_hours) as [Hcap _].
    specialize (Hcap Hwindow). split; intros H; lra.
Qed.

(** ** A solve that is not optimal *)

(** C3. When the status the solver returns for the built model is not
    [Optimal], the function returns, without raising, the result with
    that status, zero [XP_total], [XP_per_hour] and
    [total_time_used_min], and a plan without rows. *)
Theorem not_optimal_gives_zero_result
    (df_cleaned : DataFrame) (player_level : Z) (T_hours : Q)
    (integer_solution : bool) (fin : gset string) (m : LpProblem) :
  let avail := unlocked df_cleaned player_level in
  finals norm df recursion_limit avail = Return fin →
  build_model avail fin T_hours integer_solution = Return m →
  (solve m).1 ≠ Optimal →
  optimize_plan_notebook norm df recursion_limit solve
    df_cleaned player_level T_hours integer_solution
  = Return {| status := (solve m).1;
              XP_total := 0;
              XP_per_hour := Fin 0;
              total_time_used_min := 0;
              time_capacity_min := T_hours * 60;
              plan := {| columns := cols; records := [] |} |}.
Proof.
  intros avail Hfin Hm Hst. unfold optimize_plan_notebook. fold avail.
  rewrite Hfin; cbn. rewrite Hm; cbn.
  destruct (solve m) as [st value]; cbn in *.
  by rewrite decide_True.
Qed.

(** ** An optimal solve *)

Lemma optimal_run (df_cleaned : DataFrame) (player_level : Z) (T_hours : Q)
    (integer_solution : bool) (fin : gset string) (m : LpProblem)
    (value : string → option Q) :
  let avail := unlocked df_cleaned player_level in
  finals norm df recursion_limit avail = Return fin →
  build_model avail fin T_hours integer_solution = Return m →
  solve m = (Optimal, value) →
  ∃ total_xp total_time,
    (total_xp
     == sumQ ((λ p, xp_of avail p.1 * p.2)
                <$> produced avail value integer_solution))%Q
    ∧ (total_time
       == sumQ ((λ p, tmin_of avail p.1 * p.2)
                  <$> produced avail value integer_solution))%Q
    ∧ optimize_plan_notebook norm df recursion_limit solve
        df_cleaned player_level T_hours integer_solution
      = (plan_df ← machine_plan norm avail
                     (DataFrame_of_rows
                        (unfiltered_rows df_cleaned avail fin value
                           integer_solution));
         mret {| status := Optimal;
                 XP_total := total_xp;
                 XP_per_hour :=
                   if Qltb 0 T_hours then Fin (total_xp / T_hours) else NaN;
                 total_time_used_min := total_time;
                 time_capacity_min := total_cap_min T_hours;
                 plan := plan_df |}).
Proof.
  intros avail Hfin Hm Hsolve.
  destruct (extract_produced df_cleaned avail fin value integer_solution)
    as (total_xp & total_time & Hex & Hxp & Htime).
  exists total_xp, total_time. split; [done|]. split; [done|].
  unfold optimize_plan_notebook. fold avail.
  rewrite Hfin; cbn. rewrite Hm; cbn. rewrite Hsolve.
  rewrite decide_False by (intros H; by apply H).
  by rewrite Hex.
Qed.

Lemma machine_plan_rows (avail : DataFrame) (r : PlanRow)
    (rows : list PlanRow) :
  machine_plan norm avail (DataFrame_of_rows (r :: rows))
  = Return {| columns := cols;
              records :=
                sort_values
                  (filter (λ r', production_type norm avail (item r')
                                 = "Machine/Processed") (r :: rows)) |}.
Proof. reflexivity. Qed.

Lemma machine_plan_no_rows (avail : DataFrame) :
  machine_plan norm avail (DataFrame_of_rows []) = Raise (KeyError "item").
Proof. reflexivity. Qed.

(** C4. When the optimal assignment leaves every quantity at or below
    the tolerance, as it does for the unlocked raw item when the player
    level is below the machine item, no row is extracted; the frame made
    from the empty list has no column [item], and reading that column
    for the production-type filter raises [KeyError] instead of giving
    an empty plan. *)
Theorem empty_plan_raises_KeyError
    (df_cleaned : DataFrame) (player_level : Z) (T_hours : Q)
    (integer_solution : bool) (fin : gset string) (m : LpProblem)
    (value : string → option Q) :
  let avail := unlocked df_cleaned player_level in
  finals norm df recursion_limit avail = Return fin →
  build_model avail fin T_hours integer_solution = Return m →
  solve m = (Optimal, value) →
  produced avail value integer_solution = [] →
  optimize_plan_notebook norm df recursion_limit solve
    df_cleaned player_level T_hours integer_solution
  = Raise (KeyError "item").
Proof.
  intros avail Hfin Hm Hsolve Hnone.
  destruct (optimal_run _ _ T_hours _ _ _ _ Hfin Hm Hsolve)
    as (total_xp & total_time & _ & _ & ->).
  unfold unfiltered_rows. fold avail. by rewrite Hnone.
Qed.

(** C7. On an optimal solve that produces something, [XP_total] and
    [total_time_used_min] are the sums of [xp_each·qty] and
    [time_min_each·qty] over all items with above-tolerance quantities,
    whatever their production type, while the plan holds exactly those
    of their rows whose production type is "Machine/Processed". *)
Theorem totals_are_taken_before_the_filter
    (df_cleaned : DataFrame) (player_level : Z) (T_hours : Q)
    (integer_solution : bool) (fin : gset string) (m : LpProblem)
    (value : string → option Q) :
  let avail := unlocked df_cleaned player_level in
  let rows := unfiltered_rows df_cleaned avail fin value integer_solution in
  finals norm df recursion_limit avail = Return fin →
  build_model avail fin T_hours integer_solution = Return m →
  solve m = (Optimal, value) →
  produced avail value integer_solution ≠ [] →
  ∃ res,
    optimize_plan_notebook norm df recursion_limit solve
      df_cleaned player_level T_hours integer_solution = Return res
    ∧ status res = Optimal
    ∧ (XP_total res == sumQ ((λ r, xp_each r * qty r)%Q <$> rows))%Q
    ∧ (total_time_used_min res
       == sumQ ((λ r, time_min_each r * qty r)%Q <$> rows))%Q
    ∧ records (plan res)
      ≡ₚ filter (λ r, production_type norm avail (item r)
                      = "Machine/Processed") rows
    ∧ (XP_total res
       == sumQ ((λ p, xp_of avail p.1 * p.2)
                  <$> produced avail value integer_solution))%Q.
Proof.
  intros avail rows Hfin Hm Hsolve Hsome.
  destruct (optimal_run _ _ T_hours _ _ _ _ Hfin Hm Hsolve)
    as (total_xp & total_time & Hxp & Htime & ->).
  fold avail in Hxp, Htime |- *. fold rows.
  assert (Hrows : rows ≠ []).
  { subst rows. unfold unfiltered_rows.
    destruct (produced avail value integer_solution); [done|discriminate]. }
  destruct rows as [|r rows'] eqn:Erows; [done|].
  rewrite machine_plan_rows. cbn [mbind outcome_bind mret outcome_ret].
  eexists. split; [reflexivity|].
  cbn [status XP_total total_time_used_min plan records].
  split; [done|].
  subst rows. unfold unfiltered_rows in Erows. rewrite <- Erows.
  rewrite <- !list_fmap_compose.
  unfold compose; cbn [xp_each qty time_min_each plan_row].
  split; [done|]. split; [done|]. split; [|done].
  apply merge_sort_Permutation.
Qed.

(** ** What a returned result is made of *)

Lemma optimize_plan_notebook_Return
    (df_cleaned : DataFrame) (player_level : Z) (T_hours : Q)
    (integer_solution : bool) (res : Result) :
  let avail := unlocked df_cleaned player_level in
  optimize_plan_notebook norm df recursion_limit solve
    df_cleaned player_level T_hours integer_solution = Return res →
  ∃ fin m,
    finals norm df recursion_limit avail = Return fin
    ∧ build_model avail fin T_hours integer_solution = Return m
    ∧ status res = (solve m).1
    ∧ (((solve m).1 ≠ Optimal ∧ records (plan res) = [])
       ∨ ((solve m).1 = Optimal
          ∧ records (plan res)
            = sort_values
                (filter (λ r, production_type norm avail (item r)
                              = "Machine/Processed")
                   (unfiltered_rows df_cleaned avail fin (solve m).2
                      integer_solution)))).
Proof.
  intros avail H.
  destruct (finals norm df recursion_limit avail) as [fin|e] eqn:Hfin;
    [|by unfold optimize_plan_notebook in H; fold avail in H;
         rewrite Hfin in H].
  destruct (build_model avail fin T_hours integer_solution) as [m|e] eqn:Hm;
    [|by unfold optimize_plan_notebook in H; fold avail in H;
         rewrite Hfin in H; cbn in H; rewrite Hm in H].
  exists fin, m. split; [done|]. split; [done|].
  destruct (decide ((solve m).1 = Optimal)) as [Hopt|Hopt].
  - destruct (solve m) as [st value] eqn:Hsolve. cbn in Hopt. subst st.
    destruct (optimal_run _ _ T_hours _ _ _ _ Hfin Hm Hsolve)
      as (total_xp & total_time & _ & _ & Hrun).
    rewrite Hrun in H. fold avail in H. cbn [fst snd].
    destruct (unfiltered_rows df_cleaned avail fin value integer_solution)
      as [|r rows]; [by rewrite machine_plan_no_rows in H|].
    rewrite machine_plan_rows in H. injection H as <-. auto.
  - unfold optimize_plan_notebook in H. fold avail in H.
    rewrite Hfin in H; cbn in H. rewrite Hm in H; cbn in H.
    destruct (solve m) as [st value]; cbn in *.
    rewrite decide_True in H by done. injection H as <-. auto.
Qed.

(** ** Order and quantities of the returned plan *)

(** C8. The rows of a returned plan come in the order: finals first;
    among rows alike in [is_final], larger [xp_each] first; among rows
    alike in both, smaller [time_min_each] first.  Every row stands in
    that order to every row after it. *)
Theorem plan_is_sorted
    (df_cleaned : DataFrame) (player_level : Z) (T_hours : Q)
    (integer_solution : bool) (res : Result) :
  optimize_plan_notebook norm df recursion_limit solve
    df_cleaned player_level T_hours integer_solution = Return res →
  status res = Optimal →
  StronglySorted plan_order (records (plan res)).
Proof.
  intros H _.
  apply optimize_plan_notebook_Return in H
    as (fin & m & _ & _ & _ & [[_ ->]|[_ ->]]).
  - constructor.
  - apply sort_values_sorted.
Qed.

(** C10. In integer mode the quantity of a row is the solver value of
    an unlocked item rounded to the nearest integer, and it is at least
    1: the tolerance test is applied to the rounded value, so an item
    whose value rounds to 0 gets no row at all. *)
Theorem integer_plan_has_whole_quantities
    (df_cleaned : DataFrame) (player_level : Z) (T_hours : Q)
    (res : Result) :
  let avail := unlocked df_cleaned player_level in
  optimize_plan_notebook norm df recursion_limit solve
    df_cleaned player_level T_hours true = Return res →
  (∀ r, r ∈ records (plan res) →
     ∃ z : Z, qty r = inject_Z z ∧ (1 <= z)%Z)
  ∧ (∀ value i val,
       value i = Some val → py_round val = 0%Z →
       keep value true i = None
       ∧ ∀ q, (i, q) ∉ produced avail value true).
Proof.
  intros avail H. split.
  - intros r Hr.
    apply optimize_plan_notebook_Return in H
      as (fin & m & _ & _ & _ & [[_ Hrec]|[_ Hrec]]);
      rewrite Hrec in Hr; [by apply not_elem_of_nil in Hr|].
    unfold sort_values in Hr. rewrite merge_sort_Permutation in Hr.
    apply list_elem_of_filter in Hr as [_ Hr].
    apply list_elem_of_fmap in Hr as ([i q] & -> & Hp).
    apply elem_of_produced in Hp as (_ & val & _ & -> & Ht).
    exists (py_round val). split; [done|]. by apply quantity_integer_kept.
  - intros value i val Hv Hz.
    assert (Hkeep : keep value true i = None).
    { unfold keep, quantity. by rewrite Hv, Hz. }
    split; [done|]. intros q Hq.
    apply elem_of_produced in Hq as (_ & val' & Hv' & -> & Ht).
    rewrite Hv in Hv'. injection Hv' as <-.
    apply quantity_integer_kept in Ht. lia.
Qed.

(** ** Finals, ingredients and the model *)

(** [finals_in_unlocked] returns the display names of the rows it is
    given, less those that some ingredient key of these rows resolves
    to.  The key is resolved in the module-level frame [df], by its
    first row there: a key that [df] does not hold marks nothing as
    used, whatever the rows given. *)
Theorem finals_in_unlocked_are_the_unused_names (av : DataFrame) (n : string) :
  (n ∈ finals_in_unlocked df av
   ↔ n ∈ Name <$> av
     ∧ ¬ ∃ r ing, r ∈ av ∧ ing ∈ keys (needs_norm r)
                  ∧ iloc0 Name df ing = Some n)
  ∧ ((∀ r ing, r ∈ av → ing ∈ keys (needs_norm r) →
               ing ∉ name_norm <$> df) →
     finals_in_unlocked df av = list_to_set (Name <$> av)).
Proof.
  split; [apply elem_of_finals_in_unlocked|].
  intros Hmissing. apply set_eq. intros n'.
  rewrite elem_of_finals_in_unlocked, elem_of_list_to_set.
  split; [by intros [? _]|]. intros Hn. split; [done|].
  intros (r & ing & Hr & Hing & Hloc).
  apply (Hmissing r ing Hr Hing). unfold iloc0 in Hloc.
  destruct (filter (λ r0, name_norm r0 = ing) df) as [|r0 l] eqn:E;
    [discriminate|].
  assert (Hr0 : r0 ∈ filter (λ r0, name_norm r0 = ing) df)
    by (rewrite E; by left).
  apply list_elem_of_filter in Hr0 as [<- Hr0].
  apply list_elem_of_fmap. eauto.
Qed.

(** When the set of finals is computed, it holds exactly the normalised
    final names all of whose ingredients, down the recipes, are
    unlocked: the memoisation changes no answer. *)
Theorem finals_are_the_closed_final_names (avail : DataFrame)
    (fin : gset string) :
  finals norm df recursion_limit avail = Return fin →
  ∀ i, i ∈ fin
       ↔ (∃ n, n ∈ finals_in_unlocked df avail ∧ i = norm n)
         ∧ closure_holds (needs_map avail) (items_set avail) i.
Proof.
  intros H i. rewrite (elem_of_finals _ _ _ H). unfold finals_raw.
  rewrite elem_of_map. naive_solver.
Qed.

(** In a well-formed catalogue no unlocked ingredient is a final, so the
    test [k in finals] of the balance loop never holds and the stock
    alone picks the branch. *)
Theorem unlocked_ingredient_is_never_final (avail : DataFrame)
    (fin : gset string) (k : string) :
  well_formed norm df avail →
  finals norm df recursion_limit avail = Return fin →
  k ∈ ingredient_items avail →
  k ∉ fin
  ∧ (balance_constraint avail fin k
     = if crop_source avail k
       then Return {| lhs := scaled (yield_of avail k) k;
                      sense := GE;
                      rhs := minus_const (consume avail k) 30;
                      cname := v "balance_ge" k |}
       else Raise (NameError "ield_map")).
Proof.
  intros Hwf Hfin Hk.
  pose proof (ingredient_is_not_final _ _ _ Hwf Hfin Hk) as Hnot.
  split; [done|]. unfold balance_constraint.
  rewrite bool_decide_eq_false_2 by done. rewrite initial_stock_crop.
  by destruct (crop_source avail k).
Qed.

(** ** The reported figures *)

Lemma optimize_plan_notebook_result
    (df_cleaned : DataFrame) (player_level : Z) (T_hours : Q)
    (integer_solution : bool) (res : Result) :
  let avail := unlocked df_cleaned player_level in
  optimize_plan_notebook norm df recursion_limit solve
    df_cleaned player_level T_hours integer_solution = Return res →
  ∃ fin m,
    finals norm df recursion_limit avail = Return fin
    ∧ build_model avail fin T_hours integer_solution = Return m
    ∧ (((solve m).1 ≠ Optimal
        ∧ res = {| status := (solve m).1;
                   XP_total := 0;
                   XP_per_hour := Fin 0;
                   total_time_used_min := 0;
                   time_capacity_min := T_hours * 60;
                   plan := {| columns := cols; records := [] |} |})
       ∨ ((solve m).1 = Optimal
          ∧ ∃ total_xp total_time,
              (total_xp
               == sumQ ((λ p, xp_of avail p.1 * p.2)
                          <$> produced avail (solve m).2 integer_solution))%Q
              ∧ (total_time
                 == sumQ ((λ p, tmin_of avail p.1 * p.2)
                            <$> produced avail (solve m).2 integer_solution))%Q
              ∧ unfiltered_rows df_cleaned avail fin (solve m).2
                  integer_solution ≠ []
              ∧ res = {| status := Optimal;
                         XP_total := total_xp;
                         XP_per_hour :=
                           if Qltb 0 T_hours
                           then Fin (total_xp / T_hours) else NaN;
                         total_time_used_min := total_time;
                         time_capacity_min := total_cap_min T_hours;
                         plan :=
                           {| columns := cols;
                              records :=
                                sort_values
                                  (filter
                                     (λ r, production_type norm avail (item r)
                                           = "Machine/Processed")
                                     (unfiltered_rows df_cleaned avail fin
                                        (solve m).2 integer_solution)) |} |})).
Proof.
  intros avail H.
  destruct (finals norm df recursion_limit avail) as [fin|e] eqn:Hfin;
    [|by unfold optimize_plan_notebook in H; fold avail in H;
         rewrite Hfin in H].
  destruct (build_model avail fin T_hours integer_solution) as [m|e] eqn:Hm;
    [|by unfold optimize_plan_notebook in H; fold avail in H;
         rewrite Hfin in H; cbn in H; rewrite Hm in H].
  exists fin, m. split; [done|]. split; [done|].
  destruct (decide ((solve m).1 = Optimal)) as [Hopt|Hopt].
  - right. split; [done|].
    destruct (solve m) as [st value] eqn:Hsolve. cbn in Hopt. subst st.
    destruct (optimal_run _ _ T_hours _ _ _ _ Hfin Hm Hsolve)
      as (total_xp & total_time & Hxp & Htime & Hrun).
    rewrite Hrun in H. fold avail in H, Hxp, Htime. cbn [fst snd].
    exists total_xp, total_time. split; [done|]. split; [done|].
    destruct (unfiltered_rows df_cleaned avail fin value integer_solution)
      as [|r rows]; [by rewrite machine_plan_no_rows in H|].
    rewrite machine_plan_rows in H. injection H as <-. split; done.
  - left. split; [done|].
    unfold optimize_plan_notebook in H. fold avail in H.
    rewrite Hfin in H; cbn in H. rewrite Hm in H; cbn in H.
    destruct (solve m) as [st value]; cbn in *.
    rewrite decide_True in H by done. by injection H as <-.
Qed.

(** Every row of a returned plan is consistent and wanted: its totals
    are its unit figures times its quantity, its quantity exceeds the
    tolerance, and the production type found for its display name is
    "Machine/Processed"; and there is at most one row per unlocked
    item. *)
Theorem plan_rows_are_consistent
    (df_cleaned : DataFrame) (player_level : Z) (T_hours : Q)
    (integer_solution : bool) (res : Result) :
  let avail := unlocked df_cleaned player_level in
  optimize_plan_notebook norm df recursion_limit solve
    df_cleaned player_level T_hours integer_solution = Return res →
  (∀ r, r ∈ records (plan res) →
     xp_total r = (xp_each r * qty r)%Q
     ∧ time_min_total r = (time_min_each r * qty r)%Q
     ∧ (tolerance < qty r)%Q
     ∧ production_type norm avail (item r) = "Machine/Processed")
  ∧ (length (records (plan res)) ≤ size (items_set avail))%nat.
Proof.
  intros avail H.
  apply optimize_plan_notebook_Return in H
    as (fin & m & _ & _ & _ & [[_ Hrec]|[_ Hrec]]); fold avail in Hrec;
    rewrite Hrec.
  { split; [intros r Hr; by apply not_elem_of_nil in Hr|cbn; lia]. }
  unfold sort_values. split.
  - intros r Hr. rewrite merge_sort_Permutation in Hr.
    apply list_elem_of_filter in Hr as [Htype Hr].
    apply list_elem_of_fmap in Hr as ([i q] & -> & Hp).
    apply elem_of_produced in Hp as (_ & val & _ & -> & Ht).
    cbn. split; [done|]. split; [done|]. split; [by apply Qltb_lt|done].
  - rewrite merge_sort_Permutation.
    etrans; [apply length_filter|]. unfold unfiltered_rows, produced.
    rewrite length_fmap. apply length_omap_le.
Qed.

(** What a returned result reports besides the plan.  After a solve that
    is not optimal the capacity is [T_hours·60] as given, negative for a
    negative window; after an optimal one it is clamped at zero, and the
    rate is the total experience per hour, or not a number when the
    window is not positive. *)
Theorem reported_rate_and_capacity
    (df_cleaned : DataFrame) (player_level : Z) (T_hours : Q)
    (integer_solution : bool) (res : Result) :
  optimize_plan_notebook norm df recursion_limit solve
    df_cleaned player_level T_hours integer_solution = Return res →
  (status res ≠ Optimal →
     XP_per_hour res = Fin 0 ∧ time_capacity_min res = (T_hours * 60)%Q)
  ∧ (status res = Optimal →
       time_capacity_min res = total_cap_min T_hours
       ∧ ((0 < T_hours)%Q →
          XP_per_hour res = Fin (XP_total res / T_hours))
       ∧ ((T_hours <= 0)%Q → XP_per_hour res = NaN)).
Proof.
  intros H.
  apply optimize_plan_notebook_result in H
    as (fin & m & _ & _ & [[Hst ->]|[Hst (txp & ttime & _ & _ & _ & ->)]]);
    cbn [status XP_per_hour time_capacity_min XP_total].
  - split; [done|]. intros Hopt. by rewrite Hopt in Hst.
  - split; [done|]. intros _. split; [done|].
    destruct (Qltb 0 T_hours) eqn:E.
    + split; [done|]. apply Qltb_lt in E. intros. lra.
    + apply not_true_iff_false in E. rewrite Qltb_lt in E. split; [|done].
      intros. lra.
Qed.

(** The time used stays within the capacity.  When the optimal
    assignment the solver returns is non-negative and satisfies the
    global constraint, no item has a negative production time, and, in
    integer mode, the values are whole, the reported
    [total_time_used_min] is at most the reported [time_capacity_min]. *)
Theorem time_used_is_within_capacity
    (df_cleaned : DataFrame) (player_level : Z) (T_hours : Q)
    (integer_solution : bool) (fin : gset string) (m : LpProblem)
    (a : string → Q) (res : Result) :
  let avail := unlocked df_cleaned player_level in
  finals norm df recursion_limit avail = Return fin →
  build_model avail fin T_hours integer_solution = Return m →
  (solve m).1 = Optimal →
  (∀ i, i ∈ items_set avail → (solve m).2 i = Some (a i) ∧ (0 <= a i)%Q) →
  satisfies a (global_constraint avail T_hours) →
  (∀ i, i ∈ items_set avail → (0 <= tmin_of avail i)%Q) →
  (integer_solution = true →
   ∀ i, i ∈ items_set avail → ∃ z, a i = inject_Z z) →
  optimize_plan_notebook norm df recursion_limit solve
    df_cleaned player_level T_hours integer_solution = Return res →
  (total_time_used_min res <= time_capacity_min res)%Q.
Proof.
  intros avail Hfin Hm Hopt Hval Hsat Htime Hint H.
  apply optimize_plan_notebook_result in H
    as (fin' & m' & Hfin' & Hm' & Hcases); fold avail in Hfin', Hm'.
  rewrite Hfin in Hfin'. injection Hfin' as <-.
  rewrite Hm in Hm'. injection Hm' as <-.
  destruct Hcases as [[Hst _]|[_ (txp & ttime & _ & Htt & _ & ->)]];
    [done|].
  cbn [total_time_used_min time_capacity_min]. rewrite Htt.
  apply global_constraint_satisfies in Hsat. rewrite load_tmin in Hsat.
  eapply Qle_trans; [|exact Hsat]. unfold produced.
  apply kept_sum_le.
  - intros i Hi. apply elem_of_elements in Hi.
    destruct (Hval i Hi) as [Hv Ha]. split; [done|]. split; [done|].
    unfold quantity. destruct integer_solution eqn:Eint; [|reflexivity].
    destruct (Hint eq_refl i Hi) as [z Hz].
    rewrite Hz, py_round_inject_Z. reflexivity.
  - intros i Hi. apply Htime. by apply elem_of_elements.
Qed.

(** In integer mode the reported totals are those of the solver's
    assignment: when its values are whole and non-negative,
    [XP_total] is the value of the model's objective at the assignment
    and [total_time_used_min] is the total time it schedules. *)
Theorem totals_are_those_of_the_assignment
    (df_cleaned : DataFrame) (player_level : Z) (T_hours : Q)
    (fin : gset string) (m : LpProblem) (a : string → Q) (res : Result) :
  let avail := unlocked df_cleaned player_level in
  finals norm df recursion_limit avail = Return fin →
  build_model avail fin T_hours true = Return m →
  (solve m).1 = Optimal →
  (∀ i, i ∈ items_set avail →
        (solve m).2 i = Some (a i) ∧ ∃ z, a i = inject_Z z ∧ (0 <= z)%Z) →
  optimize_plan_notebook norm df recursion_limit solve
    df_cleaned player_level T_hours true = Return res →
  (XP_total res == eval a (objective m))%Q
  ∧ (total_time_used_min res
     == load avail (elements (items_set avail)) a)%Q.
Proof.
  intros avail Hfin Hm Hopt Hval H.
  apply optimize_plan_notebook_result in H
    as (fin' & m' & Hfin' & Hm' & Hcases); fold avail in Hfin', Hm'.
  rewrite Hfin in Hfin'. injection Hfin' as <-.
  rewrite Hm in Hm'. injection Hm' as <-.
  destruct Hcases as [[Hst _]|[_ (txp & ttime & Hxp & Htt & _ & ->)]];
    [done|].
  cbn [XP_total total_time_used_min]. rewrite Hxp, Htt.
  assert (Hall : ∀ i, i ∈ elements (items_set avail) →
            (solve m).2 i = Some (a i) ∧ ∃ z, a i = inject_Z z ∧ (0 <= z)%Z)
    by (intros i Hi; apply Hval; by apply elem_of_elements).
  unfold produced. rewrite load_tmin. split.
  - unfold build_model in Hm.
    apply bind_Return in Hm as (balance & _ & [= <-]). cbn [objective].
    rewrite eval_lpSum. by apply kept_sum_eq.
  - by apply kept_sum_eq.
Qed.

(** ** The page and the result *)

(** After a run that returns, the page shows the status when it is not
    [Optimal], the warning when the plan has no row, and the table
    otherwise: a returned plan always has its seven columns, so
    [plan.empty] tells whether it has rows. *)
Theorem page_shows_status_warning_or_table
    (df_cleaned : DataFrame) (player_level : Z) (T_hours : Q)
    (integer_solution : bool) (res : Result) (finals_set : gset string)
    (show_only_finals : bool) (sort_choice : string) :
  optimize_plan_notebook norm df recursion_limit solve
    df_cleaned player_level T_hours integer_solution = Return res →
  columns (plan res) = cols
  ∧ (status res ≠ Optimal →
     records (plan res) = []
     ∧ shown res finals_set show_only_finals sort_choice = Error (status res))
  ∧ (status res = Optimal → records (plan res) = [] →
     shown res finals_set show_only_finals sort_choice = Warning)
  ∧ (status res = Optimal → records (plan res) ≠ [] →
     shown res finals_set show_only_finals sort_choice
     = Table (view (plan res) finals_set show_only_finals sort_choice)).
Proof.
  intros H.
  apply optimize_plan_notebook_result in H
    as (fin & m & _ & _ & [[Hst ->]|[Hst (txp & ttime & _ & _ & _ & ->)]]);
    unfold shown; cbn [status plan columns records].
  - split; [done|]. split; [|split]; [|done|done].
    intros _. split; [done|]. by rewrite decide_True.
  - split; [done|]. split; [done|]. split.
    + intros _ ->. by rewrite decide_False by (by intros []).
    + intros _ Hrows. rewrite decide_False by (by intros []).
      unfold empty; cbn [columns records].
      by destruct (sort_values _).
Qed.

(** On the page, where the optimizer runs on the catalogue itself, the
    box "show only final products" keeps every row the plan marks as
    final, when the catalogue is well formed: the display name of such
    a row is one of the names [finals_in_unlocked] returns. *)
Theorem final_rows_pass_the_finals_filter
    (player_level : Z) (T_hours : Q) (integer_solution : bool)
    (res : Result) (sort_choice : string) (r : PlanRow) :
  well_formed norm df (unlocked df player_level) →
  optimize_plan_notebook norm df recursion_limit solve
    df player_level T_hours integer_solution = Return res →
  r ∈ records (plan res) →
  is_final r = true →
  item r ∈ finals_set df player_level
  ∧ r ∈ view (plan res) (finals_set df player_level) true sort_choice.
Proof.
  intros (Hnodup & Hsub & Hnorm) H Hr Hfinal.
  assert (Hitem : item r ∈ finals_set df player_level).
  { apply optimize_plan_notebook_Return in H
      as (fin & m & Hfin & _ & _ & [[_ Hrec]|[_ Hrec]]);
      rewrite Hrec in Hr; [by apply not_elem_of_nil in Hr|].
    unfold sort_values in Hr. rewrite merge_sort_Permutation in Hr.
    apply list_elem_of_filter in Hr as [_ Hr].
    apply list_elem_of_fmap in Hr as ([i q] & -> & Hp).
    cbn [plan_row is_final item fst snd] in Hfinal |- *.
    apply bool_decide_eq_true in Hfinal.
    eapply elem_of_finals in Hfinal as [Hraw _]; [|exact Hfin].
    unfold finals_raw in Hraw. apply elem_of_map in Hraw as (n & -> & Hn).
    unfold finals_set.
    pose proof Hn as Hn'. apply elem_of_finals_in_unlocked in Hn' as [Hname _].
    apply list_elem_of_fmap in Hname as (r' & -> & Hr').
    rewrite (Hnorm r' Hr').
    rewrite (iloc0_unique Name df r' Hnodup (Hsub r' Hr')). exact Hn. }
  split; [done|].
  rewrite (view_Permutation (plan res) (finals_set df player_level) true
             sort_choice).
  apply list_elem_of_filter. by split.
Qed.

End OptimizerFacts.

(** * The theorems on the sample catalogues *)

Lemma initial_stock_is_30_for_crops_else_0_witness :
  initial_stock (unlocked farm 2) "wheat" = 30%Q
  ∧ initial_stock (unlocked farm 2) "bread" = 0%Q.
Proof.
  split.
  - apply (initial_stock_is_30_for_crops_else_0 farm 2 "wheat").
    exists wheat. vm_compute. repeat constructor.
  - apply (initial_stock_is_30_for_crops_else_0 farm 2 "bread").
    intros r Hr Hk. vm_compute in Hr.
    apply list_elem_of_In in Hr as [<-|[<-|[]]]; [discriminate Hk|reflexivity].
Defined.

Lemma exact_balance_raises_NameError_witness :
  optimize_plan_notebook norm_ascii dairy 1000 six_loaves dairy 2 1 true
  = Raise (NameError "ield_map").
Proof.
  eapply (exact_balance_raises_NameError norm_ascii dairy 1000 six_loaves
            dairy 2 1 true _ "milk").
  - vm_compute. reflexivity.
  - vm_compute. reflexivity.
  - vm_compute. discriminate.
  - vm_compute. reflexivity.
Defined.

Lemma surplus_balance_in_model_witness :
  ∃ m c,
    build_model (unlocked mill 3) {["brown sugar"; "syrup"]} 2 true = Return m
    ∧ c ∈ constraints m
    ∧ cname c = "balance_gesugarcane"
    ∧ ∀ a : string → Q,
        satisfies a c
        ↔ (1 * a "brown sugar" + 3 * a "syrup"
           <= 2 * a "sugarcane" + 30)%Q.
Proof.
  destruct (build_model (unlocked mill 3) {["brown sugar"; "syrup"]} 2 true)
    as [m|e] eqn:Hm; [|vm_compute in Hm; discriminate Hm].
  exists m.
  destruct (surplus_balance_in_model norm_ascii mill 1000 mill 3 2 true
              {["brown sugar"; "syrup"]} m "sugarcane")
    as (c & r & Hc & Hname & Hr & Hstock & Hsat).
  - vm_compute. reflexivity.
  - exact Hm.
  - vm_compute. reflexivity.
  - right. vm_compute. discriminate.
  - exists c. split; [reflexivity|]. split; [exact Hc|].
    split; [exact Hname|]. intros a. rewrite (Hsat a), Hstock.
    vm_compute in Hr. injection Hr as <-.
    assert (Hd : (demand (unlocked mill 3) "sugarcane" a
                  == 1 * a "brown sugar" + 3 * a "syrup")%Q).
    { unfold demand.
      set (l := elements (items_set (unlocked mill 3))). vm_compute in l.
      subst l. cbn [fmap list_fmap sumQ fold_right].
      repeat match goal with
             | |- context [recipe_amount ?d ?i ?k] =>
                 let q := fresh "q" in
                 set (q := recipe_amount d i k); vm_compute in q; subst q
             end.
      ring. }
    rewrite Hd.
    set (b := crop_source (unlocked mill 3) "sugarcane"). vm_compute in b.
    subst b. cbn [Yield_qty sugarcane]. reflexivity.
Defined.

Lemma time_capacity_in_model_witness :
  ∃ m c,
    build_model (unlocked mill 3) {["brown sugar"; "syrup"]} 2 true = Return m
    ∧ c ∈ constraints m
    ∧ cname c = "machine_cap_Sugar Mill"
    ∧ (∀ a : string → Q,
         satisfies a c
         ↔ (20 * a "brown sugar" + 40 * a "syrup" <= 1440)%Q)
    ∧ last (constraints m) = Some (global_constraint (unlocked mill 3) 2)
    ∧ (∀ a : string → Q,
         satisfies a (global_constraint (unlocked mill 3) 2)
         ↔ (30 * a "sugarcane" + 20 * a "brown sugar" + 40 * a "syrup"
            <= 2 * 60)%Q).
Proof.
  destruct (build_model (unlocked mill 3) {["brown sugar"; "syrup"]} 2 true)
    as [m|e] eqn:Hm; [|vm_compute in Hm; discriminate Hm].
  exists m.
  destruct (time_capacity_in_model norm_ascii mill 1000 mill 3 2 true
              {["brown sugar"; "syrup"]} m)
    as (Hmachines & (others & Hlast & _) & Hglobal).
  - vm_compute. discriminate.
  - vm_compute. reflexivity.
  - exact Hm.
  - destruct (Hmachines syrup) as (c & Hc & Hname & Hsat).
    + vm_compute. repeat constructor.
    + exists c. split; [reflexivity|]. split; [exact Hc|].
      split; [exact Hname|].
      assert (Hsum : ∀ (items : list string) (a : string → Q) (t : Q),
                sumQ ((λ i, minutes (unlocked mill 3) i * a i)%Q <$> items)
                = t →
                load (unlocked mill 3) items a = t) by (intros; assumption).
      split; [|split].
      * intros a. rewrite (Hsat a).
        assert (Hl : (load (unlocked mill 3)
                        (on_machine (unlocked mill 3) (Building syrup)) a
                      == 20 * a "brown sugar" + 40 * a "syrup")%Q).
        { unfold load.
          set (l := on_machine (unlocked mill 3) (Building syrup)).
          vm_compute in l. subst l. cbn [fmap list_fmap sumQ fold_right].
          repeat match goal with
                 | |- context [minutes ?d ?i] =>
                     let q := fresh "q" in
                     set (q := minutes d i); vm_compute in q; subst q
                 end.
          ring. }
        rewrite Hl. reflexivity.
      * rewrite Hlast. apply last_snoc.
      * intros a. rewrite (Hglobal a).
        assert (Hl : (load (unlocked mill 3)
                        (elements (items_set (unlocked mill 3))) a
                      == 30 * a "sugarcane" + 20 * a "brown sugar"
                         + 40 * a "syrup")%Q).
        { unfold load.
          set (l := elements (items_set (unlocked mill 3))).
          vm_compute in l. subst l. cbn [fmap list_fmap sumQ fold_right].
          repeat match goal with
                 | |- context [minutes ?d ?i] =>
                     let q := fresh "q" in
                     set (q := minutes d i); vm_compute in q; subst q
                 end.
          ring. }
        rewrite Hl. reflexivity.
Defined.

Lemma not_optimal_gives_zero_result_witness :
  optimize_plan_notebook norm_ascii farm 1000 gave_up farm 2 1 true
  = Return {| status := Infeasible;
              XP_total := 0;
              XP_per_hour := Fin 0;
              total_time_used_min := 0;
              time_capacity_min := 1 * 60;
              plan := {| columns := cols; records := [] |} |}.
Proof.
  destruct (build_model (unlocked farm 2) {["bread"]} 1 true) as [m|e] eqn:Hm;
    [|vm_compute in Hm; discriminate Hm].
  apply (not_optimal_gives_zero_result norm_ascii farm 1000 gave_up
           farm 2 1 true {["bread"]} m).
  - vm_compute. reflexivity.
  - exact Hm.
  - discriminate.
Defined.

Lemma empty_plan_raises_KeyError_witness :
  optimize_plan_notebook norm_ascii farm 1000 idle farm 1 1 true
  = Raise (KeyError "item").
Proof.
  destruct (build_model (unlocked farm 1) {["wheat"]} 1 true) as [m|e] eqn:Hm;
    [|vm_compute in Hm; discriminate Hm].
  apply (empty_plan_raises_KeyError norm_ascii farm 1000 idle
           farm 1 1 true {["wheat"]} m (λ _, Some 0%Q)).
  - vm_compute. reflexivity.
  - exact Hm.
  - reflexivity.
  - vm_compute. reflexivity.
Defined.

Lemma totals_are_taken_before_the_filter_witness :
  ∃ res,
    optimize_plan_notebook norm_ascii orchard 1000 bumper orchard 3 24 true
    = Return res
    ∧ (XP_total res == 149)%Q
    ∧ (sumQ (xp_total <$> records (plan res)) == 135)%Q
    ∧ item <$> records (plan res) = ["Apple Pie"; "Apple Jam"].
Proof.
  destruct (build_model (unlocked orchard 3) {["apple jam"; "apple pie"]}
              24 true) as [m|e] eqn:Hm;
    [|vm_compute in Hm; discriminate Hm].
  destruct (totals_are_taken_before_the_filter norm_ascii orchard 1000 bumper
              orchard 3 24 true {["apple jam"; "apple pie"]} m (bumper m).2)
    as (res & Hres & _ & Hxp & _).
  - vm_compute. reflexivity.
  - exact Hm.
  - reflexivity.
  - vm_compute. discriminate.
  - exists res. split; [exact Hres|]. split.
    + rewrite Hxp. vm_compute. reflexivity.
    + vm_compute in Hres. injection Hres as <-. vm_compute. auto.
Defined.

Lemma plan_is_sorted_witness :
  ∃ res,
    optimize_plan_notebook norm_ascii orchard 1000 bumper orchard 3 24 true
    = Return res
    ∧ StronglySorted plan_order (records (plan res)).
Proof.
  destruct (optimize_plan_notebook norm_ascii orchard 1000 bumper
              orchard 3 24 true) as [res|e] eqn:Hres;
    [|vm_compute in Hres; discriminate Hres].
  exists res. split; [reflexivity|].
  apply (plan_is_sorted norm_ascii orchard 1000 bumper orchard 3 24 true res).
  - exact Hres.
  - vm_compute in Hres. injection Hres as <-. reflexivity.
Defined.

Lemma integer_plan_has_whole_quantities_witness :
  ∃ res,
    optimize_plan_notebook norm_ascii orchard 1000 fractional orchard 3 24 true
    = Return res
    ∧ (∀ r, r ∈ records (plan res) →
         ∃ z : Z, qty r = inject_Z z ∧ (1 <= z)%Z)
    ∧ qty <$> records (plan res) = [1%Q; 4%Q].
Proof.
  destruct (optimize_plan_notebook norm_ascii orchard 1000 fractional
              orchard 3 24 true) as [res|e] eqn:Hres;
    [|vm_compute in Hres; discriminate Hres].
  exists res. split; [reflexivity|]. split.
  - apply (integer_plan_has_whole_quantities norm_ascii orchard 1000
             fractional orchard 3 24 res).
    exact Hres.
  - vm_compute in Hres. injection Hres as <-. reflexivity.
Defined.

Lemma farm_is_ranked :
  ranked (needs_map farm) (items_set farm)
    (λ u, if decide (u = "bread") then 1 else 0).
Proof.
  intros u ing Hing Hin. unfold needs_map, dict_of, farm in Hing.
  rewrite dict_of_fold, !filter_cons, filter_nil in Hing.
  cbn [name_norm wheat bread] in Hing.
  destruct (decide ("bread" = u)) as [Hb|Hb],
           (decide ("wheat" = u)) as [Hw|Hw]; cbn in Hing.
  - subst u. discriminate Hw.
  - subst u. apply list_elem_of_singleton in Hing as ->.
    vm_compute. lia.
  - by apply not_elem_of_nil in Hing.
  - by apply not_elem_of_nil in Hing.
Defined.

Lemma closure_ok_acyclic_returns_cyclic_overflows_witness :
  (∃ b cache',
     closure_ok (needs_map farm) (items_set farm) 2 "bread" ∅
     = Return (b, cache'))
  ∧ closure_ok (needs_map cursed) (items_set cursed) 1000 "charm" ∅
    = Raise RecursionError.
Proof.
  split.
  - destruct (closure_ok_acyclic_returns_cyclic_overflows
                (needs_map farm) (items_set farm)) as [Hacyclic _].
    destruct (Hacyclic (λ u, if decide (u = "bread") then 1 else 0) 2
                farm_is_ranked) as [Hok _].
    apply Hok. vm_compute. lia.
  - destruct (closure_ok_acyclic_returns_cyclic_overflows
                (needs_map cursed) (items_set cursed)) as [_ Hcyclic].
    apply (Hcyclic (λ w, w = "charm" ∨ w = "ouroboros") ∅).
    + intros w [Hw|Hw]; subst w.
      * split; [vm_compute; reflexivity|]. split; [apply lookup_empty|].
        exists "ouroboros", 1%Q, []. split; [vm_compute; reflexivity|].
        right. reflexivity.
      * split; [vm_compute; reflexivity|]. split; [apply lookup_empty|].
        exists "ouroboros", 1%Q, []. split; [vm_compute; reflexivity|].
        right. reflexivity.
    + left. reflexivity.
Defined.

(** A catalogue whose final item depends on an item that needs itself:
    the run checks the final item, walks into the cycle and ends in
    [RecursionError], however many nested calls are allowed. *)
Lemma optimize_plan_notebook_on_cycle (limit : nat)
    (solve : LpProblem → SolverAnswer) :
  optimize_plan_notebook norm_ascii cursed limit solve cursed 1 1 true
  = Raise RecursionError.
Proof.
  unfold optimize_plan_notebook.
  assert (Hfin : finals norm_ascii cursed limit (unlocked cursed 1)
                 = Raise RecursionError); [|by rewrite Hfin].
  unfold finals.
  replace (elements (finals_raw norm_ascii cursed (unlocked cursed 1)))
    with ["charm"] by (vm_compute; reflexivity).
  cbn [closure_filter].
  assert (Hcharm : closure_ok (needs_map (unlocked cursed 1))
                     (items_set (unlocked cursed 1)) limit "charm" ∅
                   = Raise RecursionError); [|by rewrite Hcharm].
  destruct limit as [|d]; [done|]. cbn [closure_ok].
  rewrite lookup_empty.
  replace (needs_map (unlocked cursed 1) !! "charm")
    with (Some [("ouroboros", 1%Q)]) by (vm_compute; reflexivity).
  cbn [default from_option id closure_loop].
  rewrite decide_True by (vm_compute; reflexivity).
  rewrite (closure_ok_self_dependency _ _ "ouroboros" 1%Q []); [done|..].
  - vm_compute. reflexivity.
  - vm_compute. reflexivity.
  - apply lookup_empty.
Qed.


(** On that catalogue the check of the final item, and with it the whole
    run, comes to an end only by exhausting the nested calls allowed,
    whatever their number: the cycle is met again and again, never
    detected, and what is raised is [RecursionError], not a report of
    the cycle. *)
Lemma cyclic_catalogue_ends_in_RecursionError :
  (∀ limit : nat,
     closure_ok (needs_map (unlocked cursed 1)) (items_set (unlocked cursed 1))
       limit "charm" ∅
     = Raise RecursionError)
  ∧ (∀ (limit : nat) (solve : LpProblem → SolverAnswer),
       optimize_plan_notebook norm_ascii cursed limit solve cursed 1 1 true
       = Raise RecursionError).
Proof.
  split; [|apply optimize_plan_notebook_on_cycle].
  intros limit.
  apply (closure_ok_first_ingredient_cycle _ _ ∅
           (λ w, w = "charm" ∨ w = "ouroboros")); [|by left].
  intros w [Hw|Hw]; subst w.
  - split; [vm_compute; reflexivity|]. split; [apply lookup_empty|].
    exists "ouroboros", 1%Q, []. split; [vm_compute; reflexivity|].
    by right.
  - split; [vm_compute; reflexivity|]. split; [apply lookup_empty|].
    exists "ouroboros", 1%Q, []. split; [vm_compute; reflexivity|].
    by right.
Qed.

(** The same catalogue and level with a solver that grows three units of
    the worthless raw item: only then does the run return, with no
    experience and a plan without rows. *)
Example scenario_B_with_wheat_grown :
  optimize_plan_notebook norm_ascii farm 1000
    (λ _, (Optimal, λ _, Some 3%Q)) farm 1 1 true
  = Return {| status := Optimal;
              XP_total := 0;
              XP_per_hour := Fin 0;
              total_time_used_min := 0;
              time_capacity_min := 60;
              plan := {| columns := cols; records := [] |} |}.
Proof. vm_compute. reflexivity. Qed.

(** The farm with both items unlocked and a one-hour window, the solver
    answering six loaves: thirty experience points, and the plan is the
    one row of bread. *)
Example scenario_A :
  optimize_plan_notebook norm_ascii farm 1000 six_loaves farm 2 1 true
  = Return {| status := Optimal;
              XP_total := 30;
              XP_per_hour := Fin 30;
              total_time_used_min := 60;
              time_capacity_min := 60;
              plan :=
                {| columns := cols;
                   records :=
                     [ {| item := "Bread"; is_final := true; qty := 6;
                          xp_each := 5; xp_total := 30;
                          time_min_each := 10; time_min_total := 60 |} ] |} |}.
Proof. vm_compute. reflexivity. Qed.

(** * The further properties on the sample catalogues *)

Lemma closure_ok_keeps_the_cache_sound_witness :
  ∃ cache',
    closure_ok (needs_map farm) (items_set farm) 5 "bread" ∅
    = Return (true, cache')
    ∧ (true = true ↔ closure_holds (needs_map farm) (items_set farm) "bread")
    ∧ cache' !! "bread" = Some true.
Proof.
  destruct (closure_ok (needs_map farm) (items_set farm) 5 "bread" ∅)
    as [[b cache']|e] eqn:H; [|vm_compute in H; discriminate H].
  assert (Hb : b = true)
    by (vm_compute in H; injection H as <- _; reflexivity).
  subst b. exists cache'. split; [reflexivity|].
  destruct (closure_ok_keeps_the_cache_sound (needs_map farm)
              (items_set farm) 5 "bread" ∅ cache' true)
    as (Hb & _ & _ & Hu).
  - intros u b Hu. rewrite lookup_empty in Hu. discriminate Hu.
  - exact H.
  - split; [exact Hb|exact Hu].
Defined.

Lemma closure_ok_answer_is_stable_in_depth_witness :
  closure_ok (needs_map farm) (items_set farm) 1000 "bread" ∅
  = closure_ok (needs_map farm) (items_set farm) 2 "bread" ∅.
Proof.
  destruct (closure_ok (needs_map farm) (items_set farm) 2 "bread" ∅)
    as [r|e] eqn:H; [|vm_compute in H; discriminate H].
  apply (closure_ok_answer_is_stable_in_depth (needs_map farm)
           (items_set farm) 2 1000 "bread" ∅ r).
  - exact H.
  - lia.
Defined.

Lemma finals_are_the_closed_final_names_witness :
  "bread" ∈ ({["bread"]} : gset string)
  ↔ (∃ n, n ∈ finals_in_unlocked farm (unlocked farm 2)
          ∧ "bread" = norm_ascii n)
    ∧ closure_holds (needs_map (unlocked farm 2))
        (items_set (unlocked farm 2)) "bread".
Proof.
  apply (finals_are_the_closed_final_names norm_ascii farm 1000
           (unlocked farm 2) {["bread"]}).
  vm_compute. reflexivity.
Defined.

Lemma farm_is_well_formed :
  well_formed norm_ascii farm (unlocked farm 2).
Proof.
  split; [|split].
  - vm_compute. repeat constructor; set_solver.
  - intros r Hr. apply list_elem_of_In in Hr. vm_compute in Hr.
    apply list_elem_of_In. vm_compute. exact Hr.
  - intros r Hr. apply list_elem_of_In in Hr. vm_compute in Hr.
    destruct Hr as [<-|[<-|[]]]; vm_compute; reflexivity.
Defined.

Lemma unlocked_ingredient_is_never_final_witness :
  "wheat" ∉ ({["bread"]} : gset string)
  ∧ balance_constraint (unlocked farm 2) {["bread"]} "wheat"
    = Return {| lhs := scaled (yield_of (unlocked farm 2) "wheat") "wheat";
                sense := GE;
                rhs := minus_const (consume (unlocked farm 2) "wheat") 30;
                cname := v "balance_ge" "wheat" |}.
Proof.
  apply (unlocked_ingredient_is_never_final norm_ascii farm 1000
           (unlocked farm 2) {["bread"]} "wheat").
  - exact farm_is_well_formed.
  - vm_compute. reflexivity.
  - vm_compute. reflexivity.
Defined.


Lemma producing_nothing_is_feasible_witness :
  ∃ m, build_model (unlocked farm 2) {["bread"]} 1 true = Return m
       ∧ (∀ c, c ∈ constraints m → satisfies (λ _, 0%Q) c)
       ∧ (eval (λ _, 0%Q) (objective m) == 0)%Q.
Proof.
  destruct (build_model (unlocked farm 2) {["bread"]} 1 true) as [m|e] eqn:Hm;
    [|vm_compute in Hm; discriminate Hm].
  exists m. split; [reflexivity|].
  destruct (producing_nothing_is_feasible (unlocked farm 2) {["bread"]}
              1 true m Hm) as (Hc & _ & Ho).
  split; [exact Hc|exact Ho].
Defined.

Lemma model_variables_and_objective_witness :
  ∃ m, build_model (unlocked farm 2) {["bread"]} 1 true = Return m
       ∧ (∀ i, i ∈ items_set (unlocked farm 2) ↔ is_Some (variables m !! i)).
Proof.
  destruct (build_model (unlocked farm 2) {["bread"]} 1 true) as [m|e] eqn:Hm;
    [|vm_compute in Hm; discriminate Hm].
  exists m. split; [reflexivity|].
  destruct (model_variables_and_objective (unlocked farm 2) {["bread"]}
              1 true m Hm) as (Hv & _).
  exact Hv.
Defined.

Lemma ingredient_items_are_the_unlocked_ingredients_witness :
  ∃ m balance,
    build_model (unlocked orchard 3) {["apple jam"; "apple pie"]} 24 true
    = Return m
    ∧ constraints m
      = balance
        ++ (machine_constraint (unlocked orchard 3)
              <$> elements (active_buildings (unlocked orchard 3)))
        ++ [global_constraint (unlocked orchard 3) 24]
    ∧ length balance = 1.
Proof.
  destruct (build_model (unlocked orchard 3) {["apple jam"; "apple pie"]}
              24 true) as [m|e] eqn:Hm;
    [|vm_compute in Hm; discriminate Hm].
  destruct (ingredient_items_are_the_unlocked_ingredients
              (unlocked orchard 3) {["apple jam"; "apple pie"]} 24 true m Hm)
    as (_ & balance & Hcs & Hlen & _).
  exists m, balance. split; [reflexivity|]. split; [exact Hcs|].
  rewrite Hlen. vm_compute. reflexivity.
Defined.

(** The unlocked items of [orchard], and what [bumper] assigns to them. *)
Lemma orchard_items :
  ∃ l, elements (items_set (unlocked orchard 3)) = l
       ∧ Forall (λ i, i = "apple" ∨ i = "apple jam" ∨ i = "apple pie") l.
Proof.
  eexists. split; [vm_compute; reflexivity|].
  repeat (apply List.Forall_cons; [auto|]). apply List.Forall_nil.
Defined.

Lemma bumper_assignment (m : LpProblem) (i : string) :
  i ∈ items_set (unlocked orchard 3) →
  (bumper m).2 i = Some (bumper_values i)
  ∧ (0 <= tmin_of (unlocked orchard 3) i)%Q
  ∧ ∃ z, bumper_values i = inject_Z z ∧ (0 <= z)%Z.
Proof.
  intros Hi. apply elem_of_elements in Hi.
  destruct orchard_items as (l & Hl & Hall). rewrite Hl in Hi.
  rewrite Forall_forall in Hall. destruct (Hall i Hi) as [Hw|[Hw|Hw]]; subst i.
  - split; [vm_compute; reflexivity|]. split; [vm_compute; discriminate|].
    exists 2%Z. split; [vm_compute; reflexivity|lia].
  - split; [vm_compute; reflexivity|]. split; [vm_compute; discriminate|].
    exists 4%Z. split; [vm_compute; reflexivity|lia].
  - split; [vm_compute; reflexivity|]. split; [vm_compute; discriminate|].
    exists 1%Z. split; [vm_compute; reflexivity|lia].
Defined.

Lemma plan_rows_are_consistent_witness :
  ∃ res,
    optimize_plan_notebook norm_ascii orchard 1000 bumper orchard 3 24 true
    = Return res
    ∧ length (records (plan res)) = 2
    ∧ ∀ r, r ∈ records (plan res) →
           xp_total r = (xp_each r * qty r)%Q ∧ (tolerance < qty r)%Q.
Proof.
  destruct (optimize_plan_notebook norm_ascii orchard 1000 bumper
              orchard 3 24 true) as [res|e] eqn:Hres;
    [|vm_compute in Hres; discriminate Hres].
  exists res. split; [reflexivity|].
  destruct (plan_rows_are_consistent norm_ascii orchard 1000 bumper
              orchard 3 24 true res Hres) as [Hrows _].
  split.
  - vm_compute in Hres. injection Hres as <-. reflexivity.
  - intros r Hr. destruct (Hrows r Hr) as (H1 & _ & H3 & _).
    split; [exact H1|exact H3].
Defined.

Lemma reported_rate_and_capacity_witness :
  ∃ res,
    optimize_plan_notebook norm_ascii orchard 1000 bumper orchard 3 24 true
    = Return res
    ∧ XP_per_hour res = Fin (XP_total res / 24)
    ∧ time_capacity_min res = total_cap_min 24.
Proof.
  destruct (optimize_plan_notebook norm_ascii orchard 1000 bumper
              orchard 3 24 true) as [res|e] eqn:Hres;
    [|vm_compute in Hres; discriminate Hres].
  exists res. split; [reflexivity|].
  destruct (reported_rate_and_capacity norm_ascii orchard 1000 bumper
              orchard 3 24 true res Hres) as [_ Hopt].
  destruct Hopt as (Hcap & Hrate & _).
  - vm_compute in Hres. injection Hres as <-. reflexivity.
  - split; [apply Hrate; reflexivity|exact Hcap].
Defined.

Lemma time_used_is_within_capacity_witness :
  ∃ res,
    optimize_plan_notebook norm_ascii orchard 1000 bumper orchard 3 24 true
    = Return res
    ∧ (total_time_used_min res <= time_capacity_min res)%Q.
Proof.
  destruct (optimize_plan_notebook norm_ascii orchard 1000 bumper
              orchard 3 24 true) as [res|e] eqn:Hres;
    [|vm_compute in Hres; discriminate Hres].
  destruct (build_model (unlocked orchard 3) {["apple jam"; "apple pie"]}
              24 true) as [m|e] eqn:Hm;
    [|vm_compute in Hm; discriminate Hm].
  exists res. split; [reflexivity|].
  apply (time_used_is_within_capacity norm_ascii orchard 1000 bumper
           orchard 3 24 true {["apple jam"; "apple pie"]} m
           bumper_values).
  - vm_compute. reflexivity.
  - exact Hm.
  - reflexivity.
  - intros i Hi.
    destruct (bumper_assignment m i Hi) as (Hv & _ & z & Hz & Hpos).
    split; [exact Hv|]. rewrite Hz. change 0%Q with (inject_Z 0).
    rewrite <- Zle_Qle. exact Hpos.
  - vm_compute. discriminate.
  - intros i Hi. destruct (bumper_assignment m i Hi) as (_ & Ht & _).
    exact Ht.
  - intros _ i Hi.
    destruct (bumper_assignment m i Hi) as (_ & _ & z & Hz & _).
    exists z. exact Hz.
  - exact Hres.
Defined.

Lemma totals_are_those_of_the_assignment_witness :
  ∃ res m,
    optimize_plan_notebook norm_ascii orchard 1000 bumper orchard 3 24 true
    = Return res
    ∧ build_model (unlocked orchard 3) {["apple jam"; "apple pie"]} 24 true
      = Return m
    ∧ (XP_total res == eval bumper_values (objective m))%Q
    ∧ (XP_total res == 149)%Q.
Proof.
  destruct (optimize_plan_notebook norm_ascii orchard 1000 bumper
              orchard 3 24 true) as [res|e] eqn:Hres;
    [|vm_compute in Hres; discriminate Hres].
  destruct (build_model (unlocked orchard 3) {["apple jam"; "apple pie"]}
              24 true) as [m|e] eqn:Hm;
    [|vm_compute in Hm; discriminate Hm].
  exists res, m. split; [reflexivity|]. split; [reflexivity|].
  destruct (totals_are_those_of_the_assignment norm_ascii orchard 1000 bumper
              orchard 3 24 {["apple jam"; "apple pie"]} m
              bumper_values res) as [Hxp _].
  - vm_compute. reflexivity.
  - exact Hm.
  - reflexivity.
  - intros i Hi.
    destruct (bumper_assignment m i Hi) as (Hv & _ & Hz).
    split; [exact Hv|exact Hz].
  - exact Hres.
  - split; [exact Hxp|].
    vm_compute in Hres. injection Hres as <-. vm_compute. reflexivity.
Defined.

Lemma names_confuse_separators_witness :
  v "x" "apple pie" = v "x" "apple-pie".
Proof.
  apply (names_confuse_separators "x" "apple" "pie" " " "-");
    vm_compute; reflexivity.
Defined.

Lemma figures_of_the_last_row_building_of_the_first_witness :
  xp_of doubled "bread" = 8%Q
  ∧ tmin_of doubled "bread" = 25%Q
  ∧ (∀ b, "bread" ∈ on_machine doubled b ↔ b = "Bakery").
Proof.
  destruct (figures_of_the_last_row_building_of_the_first doubled "bread"
              bread bread_at_the_mill) as (Hxp & Ht & _ & _ & Hb).
  - vm_compute. reflexivity.
  - vm_compute. reflexivity.
  - split; [exact Hxp|]. split; [exact Ht|exact Hb].
Defined.

Lemma window_without_time_allows_none_witness :
  ∃ m,
    build_model (unlocked farm 2) {["bread"]} (-1) true = Return m
    ∧ last (constraints m) = Some (global_constraint (unlocked farm 2) (-1))
    ∧ ∀ a : string → Q,
        satisfies a (global_constraint (unlocked farm 2) (-1))
        ↔ (load (unlocked farm 2) (elements (items_set (unlocked farm 2))) a
           <= 0)%Q.
Proof.
  destruct (build_model (unlocked farm 2) {["bread"]} (-1) true)
    as [m|e] eqn:Hm; [|vm_compute in Hm; discriminate Hm].
  exists m. split; [reflexivity|].
  apply (window_without_time_allows_none (unlocked farm 2) {["bread"]}
           (-1) true m).
  - vm_compute. discriminate.
  - exact Hm.
Defined.

Lemma page_shows_status_warning_or_table_witness :
  ∃ res,
    optimize_plan_notebook norm_ascii orchard 1000 bumper orchard 3 24 true
    = Return res
    ∧ shown res (finals_set orchard 3) false "XP total (desc)"
      = Table (view (plan res) (finals_set orchard 3) false "XP total (desc)")
    ∧ item <$> view (plan res) (finals_set orchard 3) false "XP total (desc)"
      = ["Apple Jam"; "Apple Pie"].
Proof.
  destruct (optimize_plan_notebook norm_ascii orchard 1000 bumper
              orchard 3 24 true) as [res|e] eqn:Hres;
    [|vm_compute in Hres; discriminate Hres].
  exists res. split; [reflexivity|].
  destruct (page_shows_status_warning_or_table norm_ascii orchard 1000 bumper
              orchard 3 24 true res (finals_set orchard 3) false
              "XP total (desc)" Hres) as (_ & _ & _ & Htable).
  split.
  - apply Htable.
    + vm_compute in Hres. injection Hres as <-. reflexivity.
    + vm_compute in Hres. injection Hres as <-. discriminate.
  - vm_compute in Hres. injection Hres as <-. vm_compute. reflexivity.
Defined.

Lemma orchard_is_well_formed :
  well_formed norm_ascii orchard (unlocked orchard 3).
Proof.
  split; [|split].
  - vm_compute. repeat constructor; set_solver.
  - intros r Hr. apply list_elem_of_In in Hr. vm_compute in Hr.
    apply list_elem_of_In. vm_compute. exact Hr.
  - intros r Hr. apply list_elem_of_In in Hr. vm_compute in Hr.
    destruct Hr as [<-|[<-|[<-|[]]]]; vm_compute; reflexivity.
Defined.

Lemma final_rows_pass_the_finals_filter_witness :
  ∃ res,
    optimize_plan_notebook norm_ascii orchard 1000 bumper orchard 3 24 true
    = Return res
    ∧ ∀ r, r ∈ records (plan res) → is_final r = true →
           item r ∈ finals_set orchard 3
           ∧ r ∈ view (plan res) (finals_set orchard 3) true
                   "Time total (desc)".
Proof.
  destruct (optimize_plan_notebook norm_ascii orchard 1000 bumper
              orchard 3 24 true) as [res|e] eqn:Hres;
    [|vm_compute in Hres; discriminate Hres].
  exists res. split; [reflexivity|]. intros r Hr Hfinal.
  apply (final_rows_pass_the_finals_filter norm_ascii orchard 1000 bumper
           3 24 true res "Time total (desc)" r).
  - exact orchard_is_well_formed.
  - exact Hres.
  - exact Hr.
  - exact Hfinal.
Defined.
